(** * my-flask-gke-app: the instrumented request handler of [app.py]

    [app.py] is a Flask application with two views: [hello] on [/], which
    counts, times and tracks every request, opens a trace span and logs one
    JSON record, and [metrics] on [/metrics], which serves the Prometheus
    snapshot.

    The views are embedded as computations in a state-and-exception monad
    over a [World] that holds what the module-level objects of [app.py] hold:
    the three Prometheus metrics, the tracer and the logger's output.  The
    libraries the file imports (prometheus_client, opentelemetry, json,
    logging, flask/werkzeug) are not part of the repository; each is
    represented by a small model of the calls that [app.py] makes, in a module
    of its own, and what a model leaves out is said where it is defined.

    Numbers: Python floats are idealised.  Clock readings, observations and
    histogram sums are rationals ([Q]); the counter and the bucket counts,
    which only ever grow by one, are naturals ([N]); the gauge, which moves
    by one in both directions, is an integer ([Z]). *)

From Stdlib Require Import ZArith NArith QArith Lia Ascii.
From stdpp Require Import base option gmap strings list pretty.

(** The label values of a series, in the order in which the three metrics
    declare their label names: [['method', 'endpoint']]. *)
Abbreviation LabelValues := (string * string)%type.

(** ** Exceptions and the environment of one invocation *)

(** A raised Python exception, by the name of its class. *)
Definition Exn : Type := string.

(** The library calls inside the [try] block of [hello], in program order.
    Any of them may return or raise; which one raises, if any, is decided by
    the environment. *)
Inductive Site : Type :=
| AtStartSpan      (* tracer.start_as_current_span(...).__enter__ *)
| AtSetMethod      (* span.set_attribute("http.method", method) *)
| AtSetPath        (* span.set_attribute("http.path", endpoint) *)
| AtHeadersGet     (* request.headers.get('X-Request-ID', 'N/A') *)
| AtJsonDumps      (* json.dumps(log_entry) *)
| AtLoggerInfo.    (* logger.info(...) *)

(** What a scrape finds in the default registry besides the values of the
    three metrics of [app.py].  The library keeps, and [generate_latest]
    writes, more than the model of the registry holds: the collectors that
    prometheus_client registers by itself when it is imported (garbage
    collector, platform, process), whose lines come first; for every child
    of a counter or histogram the time at which it was created; and the
    children of a metric in the order in which they were created.  None of
    this is modelled: it is given with the scrape, and what is proved of a
    scrape is proved for every such gift.  A metric is named as the library
    names its family: [http_requests], [http_request_duration_seconds],
    [http_requests_in_progress]. *)
Record Scrape : Type := mkScrape {
  default_collectors : list string;
  created : string -> LabelValues -> Q;
  creation_order : string -> list LabelValues
}.

Definition bare_scrape : Scrape :=
  {| default_collectors := []; created := fun _ _ => 0%Q; creation_order := fun _ => [] |}.

(** What the outside world contributes to one request: to an invocation of
    [hello] the two readings of [time.time()] (line 65 and line 99) and, for
    every call of the [try] block, whether it raises; to an invocation of
    [metrics] what the scrape finds. *)
Record Env : Type := mkEnv {
  t_enter : Q;
  t_exit : Q;
  raises : Site -> option Exn;
  scrape : Scrape
}.

(** An environment in which no call raises. *)
Definition calm (t0 t1 : Q) : Env :=
  {| t_enter := t0; t_exit := t1; raises := fun _ => None; scrape := bare_scrape |}.

Definition no_raise (env : Env) : Prop := forall s, raises env s = None.

(** ** prometheus_client: Counter, Gauge, Histogram *)

Module Prometheus.

(** One labelled child of a [Histogram]: the running sum, the finite
    buckets (upper bound, number of observations that fell into it) and the
    [+Inf] bucket.  As in the library the stored bucket counts are not
    cumulative; they are accumulated when the snapshot is written. *)
Record HistogramChild : Type := mkHistogramChild {
  h_sum : Q;
  h_buckets : list (Q * N);
  h_inf : N
}.

(** [Histogram.DEFAULT_BUCKETS], without the final [INF]. *)
Definition DEFAULT_BUCKETS : list Q :=
  [5 # 1000; 1 # 100; 25 # 1000; 5 # 100; 75 # 1000; 1 # 10; 25 # 100;
   5 # 10; 75 # 100; 1 # 1; 25 # 10; 5 # 1; 75 # 10; 10 # 1]%Q.

Definition new_histogram : HistogramChild :=
  {| h_sum := 0; h_buckets := map (fun b => (b, 0%N)) DEFAULT_BUCKETS;
     h_inf := 0%N |}.

(** The loop of [Histogram.observe]: the first bucket whose bound is at
    least [amount] is incremented; [None] when no finite bound is. *)
Fixpoint bump (amount : Q) (bs : list (Q * N)) : option (list (Q * N)) :=
  match bs with
  | [] => None
  | (bound, n) :: rest =>
      if Qle_bool amount bound then Some ((bound, N.succ n) :: rest)
      else option_map (cons (bound, n)) (bump amount rest)
  end.

(** [Histogram.observe(amount)]: add to the sum, count in one bucket.
    There is no test on the sign of [amount]. *)
Definition observe (amount : Q) (h : HistogramChild) : HistogramChild :=
  match bump amount (h_buckets h) with
  | Some bs => {| h_sum := h_sum h + amount; h_buckets := bs; h_inf := h_inf h |}
  | None => {| h_sum := h_sum h + amount; h_buckets := h_buckets h;
               h_inf := N.succ (h_inf h) |}
  end.

Definition bucket_total (bs : list (Q * N)) : N :=
  foldr (fun b acc => (snd b + acc)%N) 0%N bs.

(** The [_count] sample: the number of observations recorded. *)
Definition h_count (h : HistogramChild) : N :=
  (bucket_total (h_buckets h) + h_inf h)%N.

(** The three metric objects of lines 47-61, each a map from label values
    to its child.  A child is created on the first [labels(...)] call that
    names it, with value zero; a missing key therefore reads as zero. *)
Record Registry : Type := mkRegistry {
  REQUEST_COUNT : gmap LabelValues N;
  REQUEST_LATENCY : gmap LabelValues HistogramChild;
  IN_PROGRESS_REQUESTS : gmap LabelValues Z
}.

Definition empty_registry : Registry :=
  {| REQUEST_COUNT := ∅; REQUEST_LATENCY := ∅; IN_PROGRESS_REQUESTS := ∅ |}.

Definition counter_value (r : Registry) (l : LabelValues) : N :=
  default 0%N (REQUEST_COUNT r !! l).

Definition gauge_value (r : Registry) (l : LabelValues) : Z :=
  default 0%Z (IN_PROGRESS_REQUESTS r !! l).

Definition histogram_child (r : Registry) (l : LabelValues) : HistogramChild :=
  default new_histogram (REQUEST_LATENCY r !! l).

(** [REQUEST_COUNT.labels(...).inc()] *)
Definition counter_inc (l : LabelValues) (r : Registry) : Registry :=
  {| REQUEST_COUNT := <[l := N.succ (counter_value r l)]> (REQUEST_COUNT r);
     REQUEST_LATENCY := REQUEST_LATENCY r;
     IN_PROGRESS_REQUESTS := IN_PROGRESS_REQUESTS r |}.

(** [IN_PROGRESS_REQUESTS.labels(...).inc()] *)
Definition gauge_inc (l : LabelValues) (r : Registry) : Registry :=
  {| REQUEST_COUNT := REQUEST_COUNT r;
     REQUEST_LATENCY := REQUEST_LATENCY r;
     IN_PROGRESS_REQUESTS := <[l := (gauge_value r l + 1)%Z]> (IN_PROGRESS_REQUESTS r) |}.

(** [IN_PROGRESS_REQUESTS.labels(...).dec()] *)
Definition gauge_dec (l : LabelValues) (r : Registry) : Registry :=
  {| REQUEST_COUNT := REQUEST_COUNT r;
     REQUEST_LATENCY := REQUEST_LATENCY r;
     IN_PROGRESS_REQUESTS := <[l := (gauge_value r l - 1)%Z]> (IN_PROGRESS_REQUESTS r) |}.

(** [REQUEST_LATENCY.labels(...).observe(amount)] *)
Definition histogram_observe (l : LabelValues) (amount : Q) (r : Registry) : Registry :=
  {| REQUEST_COUNT := REQUEST_COUNT r;
     REQUEST_LATENCY := <[l := observe amount (histogram_child r l)]> (REQUEST_LATENCY r);
     IN_PROGRESS_REQUESTS := IN_PROGRESS_REQUESTS r |}.

End Prometheus.
Import Prometheus.

(** ** opentelemetry: the tracer and the span processor *)

Module Trace.

(** A span as [app.py] uses it: a name, its attributes and whether [end()]
    has been called.  Times, status, recorded exceptions and the parent
    relation are left out. *)
Record Span : Type := mkSpan {
  sp_name : string;
  sp_attributes : gmap string string;
  sp_ended : bool
}.

(** The tracer provider of lines 30-37: the spans created so far (a span
    object is shared between the handler, which holds it as [span], and the
    provider), the stack of current spans of the context, and the queue of
    the [BatchSpanProcessor], which receives every span that ends.  The queue
    is taken to be unbounded and every span to be sampled. *)
Record TracerState : Type := mkTracerState {
  spans : gmap nat Span;
  next_id : nat;
  current : list nat;
  queue : list Span
}.

Definition empty_tracer : TracerState :=
  {| spans := ∅; next_id := 0; current := []; queue := [] |}.

(** [__enter__] of [start_as_current_span(name)]: create the span and make
    it the current one. *)
Definition start_span (name : string) (t : TracerState) : nat * TracerState :=
  let id := next_id t in
  (id, {| spans := <[id := {| sp_name := name; sp_attributes := ∅; sp_ended := false |}]> (spans t);
          next_id := S id;
          current := id :: current t;
          queue := queue t |}).

(** [span.set_attribute(key, value)]: ignored once the span has ended. *)
Definition set_attribute (id : nat) (key value : string) (t : TracerState) : TracerState :=
  match spans t !! id with
  | Some sp =>
      if sp_ended sp then t
      else {| spans := <[id := {| sp_name := sp_name sp;
                                  sp_attributes := <[key := value]> (sp_attributes sp);
                                  sp_ended := false |}]> (spans t);
              next_id := next_id t; current := current t; queue := queue t |}
  | None => t
  end.

(** [span.end()]: the first call marks the span as ended and passes it to the
    span processor, which queues it; a later call does nothing. *)
Definition end_span (id : nat) (t : TracerState) : TracerState :=
  match spans t !! id with
  | Some sp =>
      if sp_ended sp then t
      else let done := {| sp_name := sp_name sp; sp_attributes := sp_attributes sp;
                          sp_ended := true |} in
           {| spans := <[id := done]> (spans t);
              next_id := next_id t; current := current t;
              queue := queue t ++ [done] |}
  | None => t
  end.

(** [context.detach(token)]: the span stops being the current one. *)
Definition detach (t : TracerState) : TracerState :=
  {| spans := spans t; next_id := next_id t; current := tail (current t); queue := queue t |}.

End Trace.

(** ** json.dumps on a dict of strings *)

Module Json.

Definition quote : ascii := "034"%char.

Definition hex (n : N) : ascii :=
  match n with
  | 0 => "0" | 1 => "1" | 2 => "2" | 3 => "3" | 4 => "4" | 5 => "5" | 6 => "6"
  | 7 => "7" | 8 => "8" | 9 => "9" | 10 => "a" | 11 => "b" | 12 => "c"
  | 13 => "d" | 14 => "e" | _ => "f"
  end%N%char.

(** The replacement of one character by [encode_basestring_ascii]: backslash,
    the double quote and everything outside [' '..'~'] is escaped, with the
    short forms of [ESCAPE_DCT] where there is one and [\u00xx] otherwise.
    (A character of a WSGI string is below 256.) *)
Definition escape (c : ascii) : string :=
  let n := N_of_ascii c in
  if (n =? 92)%N then "\\"
  else if (n =? 34)%N then String "\" (String quote "")
  else if (n =? 8)%N then "\b"
  else if (n =? 12)%N then "\f"
  else if (n =? 10)%N then "\n"
  else if (n =? 13)%N then "\r"
  else if (n =? 9)%N then "\t"
  else if ((32 <=? n) && (n <=? 126))%N then String c ""
  else "\u00" +:+ String (hex (n / 16)) (String (hex (n mod 16)) "").

Fixpoint escape_all (s : string) : string :=
  match s with
  | EmptyString => ""
  | String c rest => escape c +:+ escape_all rest
  end.

Definition encode_basestring_ascii (s : string) : string :=
  String quote (escape_all s +:+ String quote "").

Definition item (kv : string * string) : string :=
  encode_basestring_ascii (fst kv) +:+ ": " +:+ encode_basestring_ascii (snd kv).

Fixpoint items (d : list (string * string)) : string :=
  match d with
  | [] => ""
  | [kv] => item kv
  | kv :: rest => item kv +:+ ", " +:+ items rest
  end.

(** [json.dumps(d)] with the default separators, for a dict [d] whose keys
    and values are strings, given as its items in insertion order. *)
Definition dumps (d : list (string * string)) : string :=
  "{" +:+ items d +:+ "}".

(** *** Reading back

    [app.py] only writes JSON.  The functions below read what [dumps] writes,
    the way [json.loads] does on an object whose values are strings; they
    serve to say what a reader of the log gets out of a line. *)

Definition hex_value (c : ascii) : option N :=
  let n := N_of_ascii c in
  if ((48 <=? n) && (n <=? 57))%N then Some (n - 48)%N
  else if ((97 <=? n) && (n <=? 102))%N then Some (n - 87)%N
  else if ((65 <=? n) && (n <=? 70))%N then Some (n - 55)%N
  else None.

(** The character that a backslash followed by [c] stands for. *)
Definition short_escape (c : ascii) : option ascii :=
  let n := N_of_ascii c in
  if (n =? 34)%N then Some quote
  else if (n =? 92)%N then Some "\"%char
  else if (n =? 47)%N then Some "/"%char
  else if (n =? 98)%N then Some "008"%char
  else if (n =? 102)%N then Some "012"%char
  else if (n =? 110)%N then Some "010"%char
  else if (n =? 114)%N then Some "013"%char
  else if (n =? 116)%N then Some "009"%char
  else None.

Definition consed (c : ascii) (r : option (string * string)) : option (string * string) :=
  match r with
  | Some (v, rest) => Some (String c v, rest)
  | None => None
  end.

(** Reads a string literal from behind its opening quote: the string it
    denotes and what follows its closing quote.  Of the [\u] escapes only
    those below 256 are read. *)
Fixpoint scanstring (s : string) : option (string * string) :=
  match s with
  | EmptyString => None
  | String c rest =>
      if Ascii.eqb c quote then Some (EmptyString, rest)
      else if Ascii.eqb c "\" then
        match rest with
        | EmptyString => None
        | String e rest1 =>
            if Ascii.eqb e "u" then
              match rest1 with
              | String a (String b (String h (String l rest2))) =>
                  match hex_value a, hex_value b, hex_value h, hex_value l with
                  | Some 0%N, Some 0%N, Some x, Some y =>
                      consed (ascii_of_N (16 * x + y)) (scanstring rest2)
                  | _, _, _, _ => None
                  end
              | _ => None
              end
            else
              match short_escape e with
              | Some c' => consed c' (scanstring rest1)
              | None => None
              end
        end
      else consed c (scanstring rest)
  end.

(** Reads the items of a non-empty object up to its closing brace. *)
Fixpoint read_items (fuel : nat) (s : string) : option (list (string * string)) :=
  match fuel with
  | O => None
  | S fuel' =>
      match s with
      | String q rest =>
          if Ascii.eqb q quote then
            match scanstring rest with
            | Some (k, String c1 (String c2 (String q' rest1))) =>
                if Ascii.eqb c1 ":" && Ascii.eqb c2 " " && Ascii.eqb q' quote then
                  match scanstring rest1 with
                  | Some (v, String c3 EmptyString) =>
                      if Ascii.eqb c3 "}" then Some [(k, v)] else None
                  | Some (v, String c3 (String c4 rest2)) =>
                      if Ascii.eqb c3 "," && Ascii.eqb c4 " " then
                        option_map (cons (k, v)) (read_items fuel' rest2)
                      else None
                  | _ => None
                  end
                else None
            | _ => None
            end
          else None
      | EmptyString => None
      end
  end.

Definition loads (s : string) : option (list (string * string)) :=
  match s with
  | String c rest =>
      if Ascii.eqb c "{" then
        match rest with
        | String c' EmptyString => if Ascii.eqb c' "}" then Some [] else None
        | _ => read_items (String.length rest) rest
        end
      else None
  | EmptyString => None
  end.

End Json.

(** ** werkzeug: the request *)

Module Werkzeug.

Record Request : Type := mkRequest {
  method : string;
  path : string;
  environ : gmap string string
}.

Definition upper (c : ascii) : ascii :=
  let n := N_of_ascii c in
  if ((97 <=? n) && (n <=? 122))%N then ascii_of_N (n - 32) else c.

Fixpoint upper_underscore (s : string) : string :=
  match s with
  | EmptyString => ""
  | String c rest =>
      String (if Ascii.eqb c "-" then "_"%char else upper c) (upper_underscore rest)
  end.

(** [request.headers.get(key, default)]: [EnvironHeaders] looks the header
    up in the WSGI environment under [HTTP_] followed by the name in upper
    case with [-] replaced by [_] (for a name in ASCII). *)
Definition headers_get (r : Request) (key default_ : string) : string :=
  default default_ (environ r !! ("HTTP_" +:+ upper_underscore key)).

End Werkzeug.
Import Werkzeug.

(** ** logging: the handler installed by [basicConfig] *)

Module Logging.


End Logging.

(** ** The world of the process *)

(** What happened, call by call.  The history is not part of the program: it
    is kept so that properties about the order and the number of the calls
    can be stated. *)
Inductive Event : Type :=
| GaugeInc (l : LabelValues)
| GaugeDec (l : LabelValues)
| CounterInc (l : LabelValues)
| Observe (l : LabelValues) (amount : Q)
| SpanStart (id : nat) (name : string)
| SetAttribute (id : nat) (key value : string)
| SpanEnd (id : nat)
| LogInfo (line : string).

Record World : Type := mkWorld {
  registry : Registry;
  tracer : Trace.TracerState;
  log_records : list string;   (* one entry per record handled by the logger *)
  events : list Event
}.

Definition initial_world : World :=
  {| registry := empty_registry; tracer := Trace.empty_tracer;
     log_records := []; events := [] |}.

Definition on_registry (f : Registry -> Registry) (e : Event) (w : World) : World :=
  {| registry := f (registry w); tracer := tracer w;
     log_records := log_records w; events := events w ++ [e] |}.

Definition on_tracer (f : Trace.TracerState -> Trace.TracerState) (e : Event) (w : World) : World :=
  {| registry := registry w; tracer := f (tracer w);
     log_records := log_records w; events := events w ++ [e] |}.

(** ** Computations: state and exceptions *)

Inductive Outcome (A : Type) : Type :=
| Returned (a : A)
| Raised (e : Exn).
Arguments Returned {A} a.
Arguments Raised {A} e.

Definition M (A : Type) : Type := World -> Outcome A * World.

#[export] Instance M_ret : MRet M := fun A a w => (Returned a, w).

#[export] Instance M_bind : MBind M := fun A B f m w =>
  match m w with
  | (Returned a, w') => f a w'
  | (Raised e, w') => (Raised e, w')
  end.

(** A call that changes the world and cannot raise. *)
Definition effect (f : World -> World) : M unit :=
  fun w => (Returned tt, f w).

(** A call of the [try] block: it raises where the environment says so, and
    then has no effect. *)
Definition call {A : Type} (env : Env) (s : Site) (k : M A) : M A :=
  fun w =>
    match raises env s with
    | Some e => (Raised e, w)
    | None => k w
    end.

(** [try: body finally: cleanup].  The cleanup runs whatever the outcome of
    the body; the outcome of the body is kept unless the cleanup raises. *)
Definition try_finally {A : Type} (body : M A) (cleanup : M unit) : M A :=
  fun w =>
    let '(r, w1) := body w in
    match cleanup w1 with
    | (Returned _, w2) => (r, w2)
    | (Raised e, w2) => (Raised e, w2)
    end.

(** [with enter as h: body], for a context manager whose exit cannot raise and
    does not swallow exceptions: when [enter] raises nothing else runs;
    otherwise [exit_] runs whatever the outcome of the body. *)
Definition with_ {H A : Type} (enter : M H) (exit_ : H -> World -> World)
    (body : H -> M A) : M A :=
  fun w =>
    match enter w with
    | (Raised e, w1) => (Raised e, w1)
    | (Returned h, w1) =>
        let '(r, w2) := body h w1 in (r, exit_ h w2)
    end.

(** ** The calls of [hello] *)

Definition in_progress_inc (l : LabelValues) : M unit :=
  effect (on_registry (gauge_inc l) (GaugeInc l)).

Definition in_progress_dec (l : LabelValues) : M unit :=
  effect (on_registry (gauge_dec l) (GaugeDec l)).

Definition request_count_inc (l : LabelValues) : M unit :=
  effect (on_registry (counter_inc l) (CounterInc l)).

Definition request_latency_observe (l : LabelValues) (amount : Q) : M unit :=
  effect (on_registry (histogram_observe l amount) (Observe l amount)).

(** Entering [tracer.start_as_current_span(name)]. *)
Definition span_enter (env : Env) (name : string) : M nat :=
  call env AtStartSpan (fun w =>
    let '(id, t) := Trace.start_span name (tracer w) in
    (Returned id, on_tracer (fun _ => t) (SpanStart id name) w)).

(** Leaving it: the context is detached and the span is ended. *)
Definition span_exit (id : nat) (w : World) : World :=
  on_tracer (fun t => Trace.end_span id (Trace.detach t)) (SpanEnd id) w.

Definition start_as_current_span {A : Type} (env : Env) (name : string)
    (body : nat -> M A) : M A :=
  with_ (span_enter env name) span_exit body.

Definition set_attribute (env : Env) (s : Site) (span : nat) (key value : string) : M unit :=
  call env s (effect (on_tracer (Trace.set_attribute span key value)
                                (SetAttribute span key value))).

Definition request_headers_get (env : Env) (request : Request) (key default_ : string) : M string :=
  call env AtHeadersGet (mret (headers_get request key default_)).

Definition json_dumps (env : Env) (d : list (string * string)) : M string :=
  call env AtJsonDumps (mret (Json.dumps d)).

(** [logger.info(msg)]: the level set by [basicConfig] (line 18) is INFO, so
    the record is handled, once; the handler writes it, behind the level and
    the name of the logger, as one line.  The world keeps the message of each
    record. *)
Definition logger_info (env : Env) (msg : string) : M unit :=
  call env AtLoggerInfo (effect (fun w =>
    {| registry := registry w; tracer := tracer w;
       log_records := log_records w ++ [msg];
       events := events w ++ [LogInfo msg] |})).

(** ** The view [hello] (lines 63-99) *)

(** Line 79. *)
Definition message : string :=
  "Hello from Flask on GKE! (Version 1.1 with Tracing)".

(** The dict of lines 82-89, as its items in the order in which they are
    written. *)
Definition log_entry (method endpoint request_id : string) : list (string * string) :=
  [("severity", "INFO");
   ("message", message);
   ("service_name", "my-flask-app");
   ("http_method", method);
   ("http_path", endpoint);
   ("request_id", request_id)].

(** The view.  [start_time] is the first reading of the clock (line 65).  The
    gauge is incremented before the [try] statement is entered (line 69);
    [trace.get_tracer] (line 72) only hands out the tracer and is not
    represented: the calls that may raise are those of the [try] block, and
    a failure between line 69 and the [try] statement is outside the model.
    The first argument of [try_finally] is the [try] block
    (lines 75-95), the second the [finally] block (lines 97-99), whose last
    call reads the clock a second time. *)
Definition hello (request : Request) (env : Env) : M string :=
  let start_time := t_enter env in
  let method := method request in
  let endpoint := "/" in
  in_progress_inc (method, endpoint);;
  try_finally
    (start_as_current_span env "hello-endpoint-processing" (fun span =>
       set_attribute env AtSetMethod span "http.method" method;;
       set_attribute env AtSetPath span "http.path" endpoint;;
       request_id ← request_headers_get env request "X-Request-ID" "N/A";
       line ← json_dumps env (log_entry method endpoint request_id);
       logger_info env line;;
       mret message))
    (in_progress_dec (method, endpoint);;
     request_count_inc (method, endpoint);;
     request_latency_observe (method, endpoint) (t_exit env - start_time)%Q).

(** ** prometheus_client: the text exposition of the registry *)

Module Exposition.

Record Sample : Type := mkSample {
  s_name : string;
  s_labels : list (string * string);
  s_value : Q
}.

Record Metric : Type := mkMetric {
  m_name : string;
  m_documentation : string;
  m_type : string;
  m_samples : list Sample
}.

Definition newline : string := String "010"%char "".

Definition of_N (n : N) : Q := inject_Z (Z.of_N n).

(** The labels of a series, under the label names of lines 50, 55 and 60. *)
Definition series_labels (l : LabelValues) : list (string * string) :=
  [("method", fst l); ("endpoint", snd l)].

(** [sorted(labels.items())]: the label names of one sample are distinct, so
    the items are ordered by name. *)
Fixpoint insert_sorted (kv : string * string) (l : list (string * string)) :
    list (string * string) :=
  match l with
  | [] => [kv]
  | kv' :: rest =>
      if String.leb (fst kv) (fst kv') then kv :: kv' :: rest
      else kv' :: insert_sorted kv rest
  end.

Definition sorted (l : list (string * string)) : list (string * string) :=
  foldr insert_sorted [] l.

(** The escapes of a label value: backslash, line feed and double quote. *)
Fixpoint escape_label_value (s : string) : string :=
  match s with
  | EmptyString => ""
  | String c rest =>
      (if Ascii.eqb c "\" then "\\"
       else if Ascii.eqb c "010" then "\n"
       else if Ascii.eqb c Json.quote then String "\" (String Json.quote "")
       else String c "") +:+ escape_label_value rest
  end.

(** A string between double quotes. *)
Definition quoted (s : string) : string :=
  String Json.quote (s +:+ String Json.quote "").

Definition label_text (kv : string * string) : string :=
  fst kv +:+ "=" +:+ quoted (escape_label_value (snd kv)).

(** Bucket counts as they are written: accumulated from the first bucket
    on. *)
Fixpoint cumulative (acc : N) (bs : list (Q * N)) : list (Q * N) :=
  match bs with
  | [] => []
  | (bound, n) :: rest => (bound, (acc + n)%N) :: cumulative (acc + n)%N rest
  end.

(** The children of a metric as they are written: those named in [order],
    in that order, then any others.  With [order] the order in which the
    children were created this is the order of the dict in which the library
    keeps them. *)
Definition arrange {V : Type} (order : list LabelValues) (m : gmap LabelValues V) :
    list (LabelValues * V) :=
  omap (fun l => option_map (pair l) (m !! l)) (remove_dups order)
  ++ map_to_list (filter (fun kv => fst kv ∉ order) m).

(** The [_sum] sample of a histogram is written when its first bound is not
    negative, as it is for the default buckets. *)
Definition writes_sum (h : HistogramChild) : bool :=
  match h_buckets h with
  | (bound, _) :: _ => Qle_bool 0 bound
  | [] => true
  end.

(** The [_created] sample of a family is set aside while the family is
    written. *)
Definition is_created (m : Metric) (s : Sample) : bool :=
  String.eqb (s_name s) (m_name m +:+ "_created").

(** The name under which a family is announced: a counter gets [_total]. *)
Definition exposed_name (m : Metric) : string :=
  if String.eqb (m_type m) "counter" then m_name m +:+ "_total" else m_name m.

Definition counter_samples (sc : Scrape) (r : Registry) : list Sample :=
  concat (map (fun kv => [mkSample "http_requests_total" (series_labels (fst kv))
                                   (of_N (snd kv));
                          mkSample "http_requests_created" (series_labels (fst kv))
                                   (created sc "http_requests" (fst kv))])
              (arrange (creation_order sc "http_requests") (REQUEST_COUNT r))).

Definition gauge_samples (sc : Scrape) (r : Registry) : list Sample :=
  map (fun kv => mkSample "http_requests_in_progress" (series_labels (fst kv))
                          (inject_Z (snd kv)))
      (arrange (creation_order sc "http_requests_in_progress") (IN_PROGRESS_REQUESTS r)).

Section Render.

(** The decimal text of a float ([floatToGoString]); how a number is spelt
    is not modelled. *)
Variable floatToGoString : Q -> string.

Definition sample_line (s : Sample) : string :=
  s_name s
  +:+ match s_labels s with
      | [] => ""
      | _ => "{" +:+ String.concat "," (map label_text (sorted (s_labels s))) +:+ "}"
      end
  +:+ " " +:+ floatToGoString (s_value s) +:+ newline.

(** What follows the two comment lines of a family: its samples, one line
    each, but for the [_created] samples, which come after the others under
    comment lines of their own, as a gauge. *)
Definition sample_block (m : Metric) : list string :=
  map sample_line (List.filter (fun s => negb (is_created m s)) (m_samples m))
  ++ match List.filter (is_created m) (m_samples m) with
     | [] => []
     | om_samples =>
         ("# HELP " +:+ m_name m +:+ "_created " +:+ m_documentation m +:+ newline)
         :: ("# TYPE " +:+ m_name m +:+ "_created gauge" +:+ newline)
         :: map sample_line om_samples
     end.

Definition metric_lines (m : Metric) : list string :=
  ("# HELP " +:+ exposed_name m +:+ " " +:+ m_documentation m +:+ newline)
  :: ("# TYPE " +:+ exposed_name m +:+ " " +:+ m_type m +:+ newline)
  :: sample_block m.

(** The samples of one child of the histogram: the buckets, accumulated, the
    [+Inf] bucket, [_count], [_sum] and [_created]. *)
Definition histogram_child_samples (sc : Scrape) (l : LabelValues) (h : HistogramChild) :
    list Sample :=
  map (fun bn => mkSample "http_request_duration_seconds_bucket"
                          (series_labels l ++ [("le", floatToGoString (fst bn))])
                          (of_N (snd bn)))
      (cumulative 0 (h_buckets h))
  ++ [mkSample "http_request_duration_seconds_bucket"
               (series_labels l ++ [("le", "+Inf")]) (of_N (h_count h));
      mkSample "http_request_duration_seconds_count" (series_labels l) (of_N (h_count h))]
  ++ (if writes_sum h
      then [mkSample "http_request_duration_seconds_sum" (series_labels l) (h_sum h)]
      else [])
  ++ [mkSample "http_request_duration_seconds_created" (series_labels l)
               (created sc "http_request_duration_seconds" l)].

Definition histogram_samples (sc : Scrape) (r : Registry) : list Sample :=
  concat (map (fun kv => histogram_child_samples sc (fst kv) (snd kv))
              (arrange (creation_order sc "http_request_duration_seconds")
                       (REQUEST_LATENCY r))).

(** The metrics of [app.py], in the order of their registration, with the
    names, documentation strings and types of lines 47-61; the library
    strips [_total] from the name of a counter and adds it back to the
    sample and to the announced name. *)
Definition collect (sc : Scrape) (r : Registry) : list Metric :=
  [mkMetric "http_requests" "Total HTTP Requests" "counter" (counter_samples sc r);
   mkMetric "http_request_duration_seconds" "HTTP Request Latency" "histogram"
            (histogram_samples sc r);
   mkMetric "http_requests_in_progress" "Number of in-progress HTTP requests" "gauge"
            (gauge_samples sc r)].

(** The lines written for the metrics of [app.py]. *)
Definition app_lines (sc : Scrape) (r : Registry) : list string :=
  concat (map metric_lines (collect sc r)).

(** All lines: those of the collectors of the library, then those of the
    metrics of [app.py], which were registered later. *)
Definition exposition_lines (sc : Scrape) (r : Registry) : list string :=
  default_collectors sc ++ app_lines sc r.

Definition generate_latest (sc : Scrape) (r : Registry) : string :=
  String.concat "" (exposition_lines sc r).

End Render.

End Exposition.

(** ** flask: responses and dispatch *)

Module Flask.

Record Response : Type := mkResponse {
  status : nat;
  mimetype : string;
  data : string
}.

(** [Response(data, mimetype=...)]: the status defaults to 200. *)
Definition Response_ (data mimetype : string) : Response :=
  {| status := 200; mimetype := mimetype; data := data |}.

(** What a view returns: [hello] a [str], [metrics] a [Response]. *)
Inductive ViewResult : Type :=
| RvStr (s : string)
| RvResponse (r : Response).

(** [Flask.make_response]: a [str] becomes the body of a response with status
    200 and the default mimetype of the response class, [text/html]; a
    response object is passed on as it is. *)
Definition make_response (rv : ViewResult) : Response :=
  match rv with
  | RvStr s => {| status := 200; mimetype := "text/html"; data := s |}
  | RvResponse r => r
  end.

(** The [Content-Type] header: a [text/] mimetype gets the charset. *)
Definition content_type (r : Response) : string :=
  if String.prefix "text/" (mimetype r) then mimetype r +:+ "; charset=utf-8"
  else mimetype r.

Definition error_response (code : nat) : Response :=
  {| status := code; mimetype := "text/html"; data := "" |}.

End Flask.
Import Flask.

(** ** The view [metrics] (lines 102-104) and the application *)

Section Application.

Variable floatToGoString : Q -> string.

Definition metrics (env : Env) : M Response :=
  fun w => (Returned (Response_ (Exposition.generate_latest floatToGoString (scrape env)
                                                            (registry w))
                                "text/plain"), w).

(** The URL map built by the two [@app.route] decorators. *)
Definition url_map (request : Request) (env : Env) : option (M ViewResult) :=
  if String.eqb (path request) "/" then
    Some (s ← hello request env; mret (RvStr s))
  else if String.eqb (path request) "/metrics" then
    Some (r ← metrics env; mret (RvResponse r))
  else None.

(** One request through the application: no rule for the path gives 404; a
    rule registered without [methods] answers GET and HEAD with its view and
    OPTIONS by itself, anything else gives 405; an exception that leaves the
    view gives 500.  The body of the answer to HEAD is dropped.  The model
    gives the response and what the views do to the world.  What the
    framework adds around them is left out: the server span that
    [FlaskInstrumentor] (line 43) opens and queues for every request, the
    error record that Flask logs when an exception leaves a view, and the
    bodies of the error pages.  Of the world after a request only the
    metrics, which the framework does not touch, are reasoned about. *)
Definition wsgi_app (request : Request) (env : Env) (w : World) : Response * World :=
  match url_map request env with
  | None => (error_response 404, w)
  | Some view =>
      if String.eqb (method request) "GET" || String.eqb (method request) "HEAD" then
        match view w with
        | (Returned rv, w') =>
            let r := make_response rv in
            (if String.eqb (method request) "HEAD"
             then {| status := status r; mimetype := mimetype r; data := "" |}
             else r, w')
        | (Raised _, w') => (error_response 500, w')
        end
      else if String.eqb (method request) "OPTIONS" then
        ({| status := 200; mimetype := "text/html"; data := "" |}, w)
      else (error_response 405, w)
  end.

(** Requests served one after the other. *)
Fixpoint serve (jobs : list (Request * Env)) (w : World) : list Response * World :=
  match jobs with
  | [] => ([], w)
  | (request, env) :: rest =>
      let '(r, w1) := wsgi_app request env w in
      let '(rs, w2) := serve rest w1 in
      (r :: rs, w2)
  end.

End Application.

(** Invocations of [hello] one after the other, whatever their outcomes. *)
Fixpoint hello_all (jobs : list (Request * Env)) (w : World) : World :=
  match jobs with
  | [] => w
  | (request, env) :: rest => hello_all rest (snd (hello request env w))
  end.

(** ** Observing a run *)

(** The events that a run from [w] to [w'] added to the history. *)
Definition new_events (w w' : World) : list Event :=
  drop (length (events w)) (events w').

Definition is_metric (e : Event) : bool :=
  match e with
  | GaugeInc _ | GaugeDec _ | CounterInc _ | Observe _ _ => true
  | _ => false
  end.

Definition is_span_bound (e : Event) : bool :=
  match e with
  | SpanStart _ _ | SpanEnd _ => true
  | _ => false
  end.

Definition is_log (e : Event) : bool :=
  match e with
  | LogInfo _ => true
  | _ => false
  end.

(** The effect of one event on the metrics, and of a history read from its
    start: the registry at any moment of a run is the replay of the events up
    to that moment. *)
Definition apply_event (e : Event) (r : Registry) : Registry :=
  match e with
  | GaugeInc l => gauge_inc l r
  | GaugeDec l => gauge_dec l r
  | CounterInc l => counter_inc l r
  | Observe l amount => histogram_observe l amount r
  | _ => r
  end.

Definition replay (evs : list Event) (r : Registry) : Registry :=
  foldl (fun acc e => apply_event e acc) r evs.

(** The amounts passed to [observe] for the series [l], oldest first. *)
Fixpoint observations (l : LabelValues) (evs : list Event) : list Q :=
  match evs with
  | [] => []
  | Observe l' amount :: rest =>
      if decide (l' = l) then amount :: observations l rest else observations l rest
  | _ :: rest => observations l rest
  end.

(** The state in which the [finally] block of an invocation leaves a world. *)
Definition cleanup_world (l : LabelValues) (d : Q) (w : World) : World :=
  on_registry (histogram_observe l d) (Observe l d)
    (on_registry (counter_inc l) (CounterInc l)
      (on_registry (gauge_dec l) (GaugeDec l) w)).

Definition program_order : list Site :=
  [AtStartSpan; AtSetMethod; AtSetPath; AtHeadersGet; AtJsonDumps; AtLoggerInfo].

(** The exception of the first call, in program order, that raises. *)
Definition first_raise (env : Env) : option Exn :=
  foldr (fun s later => match raises env s with Some e => Some e | None => later end)
        None program_order.



(** The value of a field of a record given by its items. *)
Fixpoint field (key : string) (d : list (string * string)) : option string :=
  match d with
  | [] => None
  | (k, v) :: rest => if String.eqb k key then Some v else field key rest
  end.

Definition GET_root : LabelValues := ("GET", "/").

(** A GET request for [path] with the given WSGI environment. *)
Definition GET (path : string) (environ : gmap string string) : Request :=
  {| method := "GET"; path := path; environ := environ |}.

(** The span [id] is open in the tracer [t]: it exists under the name [name]
    and has not ended; [q] is the queue of the span processor and [c] the
    stack of current spans. *)
Definition live (id : nat) (name : string) (q : list Trace.Span) (c : list nat)
    (t : Trace.TracerState) : Prop :=
  exists sp, Trace.spans t !! id = Some sp /\ Trace.sp_name sp = name
             /\ Trace.sp_ended sp = false
             /\ Trace.queue t = q /\ Trace.current t = c.

(** The change that one event makes to the gauge of the series [l], and the
    net change of a history. *)
Definition gauge_step (l : LabelValues) (e : Event) : Z :=
  match e with
  | GaugeInc l' => if decide (l' = l) then 1 else 0
  | GaugeDec l' => if decide (l' = l) then -1 else 0
  | _ => 0
  end.

(** The sum over a history of what each event contributes. *)
Definition tally (step : Event -> Z) (evs : list Event) : Z :=
  foldr (fun e acc => (step e + acc)%Z) 0%Z evs.

Definition gauge_net (l : LabelValues) (evs : list Event) : Z :=
  tally (gauge_step l) evs.

(** The number of increments of the counter, and of observations, of the
    series [l] in a history. *)
Definition counter_step (l : LabelValues) (e : Event) : Z :=
  match e with
  | CounterInc l' => if decide (l' = l) then 1 else 0
  | _ => 0
  end.

Definition observe_step (l : LabelValues) (e : Event) : Z :=
  match e with
  | Observe l' _ => if decide (l' = l) then 1 else 0
  | _ => 0
  end.

(** ** Invocations that overlap *)

(** The calls that one invocation makes on the metrics, in order.  They do
    not depend on the world in which the invocation starts. *)
Definition metric_calls (job : Request * Env) : list Event :=
  List.filter is_metric (events (snd (hello (fst job) (snd job) initial_world))).

(** [interleaving ts tr]: the history [tr] is a schedule of the threads
    [ts]; it is built by taking, again and again, the next event of one of
    the threads, until none has an event left.  Each call on a metric is
    atomic (the library guards every value with a lock), so a run of
    overlapping invocations adds to the history an interleaving of their
    calls. *)
Inductive interleaving {A : Type} : list (list A) -> list A -> Prop :=
| interleaving_done ts :
    Forall (fun t => t = []) ts -> interleaving ts []
| interleaving_step ts1 x t ts2 tr :
    interleaving (ts1 ++ t :: ts2) tr ->
    interleaving (ts1 ++ (x :: t) :: ts2) (x :: tr).

Definition sum_Z (zs : list Z) : Z := foldr Z.add 0%Z zs.

(** Sample environments: [json.dumps] raises; the wall clock is set back
    while the request is served. *)
Definition env_dumps_raises : Env :=
  {| t_enter := 0; t_exit := 1;
     raises := fun s => match s with AtJsonDumps => Some "TypeError" | _ => None end;
     scrape := bare_scrape |}.

Definition env_clock_set_back : Env := calm 5 3.

(** ** Traffic *)

(** The requests that [wsgi_app] hands to [hello]: the path is [/] and the
    method is one that the rule answers with its view. *)
Definition runs_hello (request : Request) : bool :=
  String.eqb (path request) "/"
  && (String.eqb (method request) "GET" || String.eqb (method request) "HEAD").

(** The requests of a run that are recorded under the series [l]. *)
Definition counted (l : LabelValues) (job : Request * Env) : bool :=
  runs_hello (fst job) && bool_decide ((method (fst job), "/") = l).

(** The label pairs under which [hello] can be reached. *)
Definition known_series : gset LabelValues := {[ ("GET", "/"); ("HEAD", "/") ]}.

(** The span that an invocation leaves in the queue when none of its calls
    raises, and the line it logs. *)
Definition request_span (request : Request) : Trace.Span :=
  {| Trace.sp_name := "hello-endpoint-processing";
     Trace.sp_attributes := <["http.path" := "/"]> (<["http.method" := method request]> ∅);
     Trace.sp_ended := true |}.

Definition log_line (request : Request) : string :=
  Json.dumps (log_entry (method request) "/" (headers_get request "X-Request-ID" "N/A")).

(** The three metrics hold the same series, and only series under which
    [hello] can be reached. *)
Definition series_bounded (r : Registry) : Prop :=
  dom (REQUEST_COUNT r) ⊆ known_series
  /\ dom (REQUEST_LATENCY r) = dom (REQUEST_COUNT r)
  /\ dom (IN_PROGRESS_REQUESTS r) = dom (REQUEST_COUNT r).

(** A sample environment: [start_as_current_span] raises. *)
Definition env_start_span_raises : Env :=
  {| t_enter := 0; t_exit := 1;
     raises := fun s => match s with AtStartSpan => Some "RuntimeError" | _ => None end;
     scrape := bare_scrape |}.

(** ** A sample scrape *)





(** ** The metrics, call by call *)

Section RegistryFacts.

Variables (l : LabelValues) (r : Registry).

Lemma gauge_value_inc : gauge_value (gauge_inc l r) l = (gauge_value r l + 1)%Z.
Proof. unfold gauge_value at 1, gauge_inc. cbn. by rewrite lookup_insert_eq. Qed.

Lemma gauge_value_dec : gauge_value (gauge_dec l r) l = (gauge_value r l - 1)%Z.
Proof. unfold gauge_value at 1, gauge_dec. cbn. by rewrite lookup_insert_eq. Qed.

Lemma gauge_value_inc_ne l' : l' <> l -> gauge_value (gauge_inc l' r) l = gauge_value r l.
Proof. intros. unfold gauge_value, gauge_inc. cbn. by rewrite lookup_insert_ne. Qed.

Lemma gauge_value_dec_ne l' : l' <> l -> gauge_value (gauge_dec l' r) l = gauge_value r l.
Proof. intros. unfold gauge_value, gauge_dec. cbn. by rewrite lookup_insert_ne. Qed.

Lemma counter_value_inc : counter_value (counter_inc l r) l = N.succ (counter_value r l).
Proof. unfold counter_value at 1, counter_inc. cbn. by rewrite lookup_insert_eq. Qed.

Lemma counter_value_inc_ne l' : l' <> l -> counter_value (counter_inc l' r) l = counter_value r l.
Proof. intros. unfold counter_value, counter_inc. cbn. by rewrite lookup_insert_ne. Qed.

Lemma histogram_child_observe amount :
  histogram_child (histogram_observe l amount r) l = observe amount (histogram_child r l).
Proof. unfold histogram_child at 1, histogram_observe. cbn. by rewrite lookup_insert_eq. Qed.

Lemma histogram_child_observe_ne l' amount :
  l' <> l -> histogram_child (histogram_observe l' amount r) l = histogram_child r l.
Proof. intros. unfold histogram_child, histogram_observe. cbn. by rewrite lookup_insert_ne. Qed.

End RegistryFacts.

Lemma bump_total amount bs bs' :
  bump amount bs = Some bs' -> bucket_total bs' = N.succ (bucket_total bs).
Proof.
  revert bs'. induction bs as [|[bound n] rest IH]; intros bs'; cbn [bump].
  - discriminate.
  - destruct (Qle_bool amount bound).
    + intros [= <-]. unfold bucket_total. cbn [foldr snd]. lia.
    + destruct (bump amount rest) as [rest'|]; cbn [option_map]; [|discriminate].
      intros [= <-]. specialize (IH _ eq_refl).
      unfold bucket_total in *. cbn [foldr snd]. lia.
Qed.

(** Whatever the amount, [observe] counts it: once, in one bucket. *)
Lemma h_count_observe amount h : h_count (observe amount h) = N.succ (h_count h).
Proof.
  unfold observe, h_count.
  destruct (bump amount (h_buckets h)) as [bs|] eqn:E; cbn [h_buckets h_inf].
  - rewrite (bump_total _ _ _ E). lia.
  - lia.
Qed.

Lemma h_sum_observe amount h : h_sum (observe amount h) = (h_sum h + amount)%Q.
Proof. unfold observe. by destruct (bump amount (h_buckets h)). Qed.

(** ** One invocation of [hello] *)

(** Symbolic execution of [hello]: unfold the monad and the calls, then
    split on what the environment says at each call of the [try] block. *)
Ltac run_hello :=
  cbv beta iota zeta delta
    [hello mbind M_bind mret M_ret try_finally start_as_current_span with_
     span_enter span_exit call effect set_attribute request_headers_get
     json_dumps logger_info in_progress_inc in_progress_dec request_count_inc
     request_latency_observe Trace.start_span on_registry on_tracer
     registry tracer log_records events cleanup_world first_raise foldr
     program_order fst snd].

Ltac by_site env :=
  destruct (raises env AtStartSpan) eqn:?;
  [|destruct (raises env AtSetMethod) eqn:?;
  [|destruct (raises env AtSetPath) eqn:?;
  [|destruct (raises env AtHeadersGet) eqn:?;
  [|destruct (raises env AtJsonDumps) eqn:?;
  [|destruct (raises env AtLoggerInfo) eqn:?]]]]].

Ltac same_history := rewrite <- ?app_assoc; cbn [app]; reflexivity.

Lemma new_events_app w w' delta :
  events w' = events w ++ delta -> new_events w w' = delta.
Proof. intros H. unfold new_events. rewrite H. by rewrite drop_app_length. Qed.

(** [hello] is: the gauge goes up; the [try] block runs, touching no metric;
    the [finally] block runs on what the [try] block left; the outcome is the
    one of the [try] block. *)
Lemma hello_shape request env w :
  exists wb inner,
    hello request env w
    = (match first_raise env with Some e => Raised e | None => Returned message end,
       cleanup_world (method request, "/") (t_exit env - t_enter env)%Q wb)
    /\ registry wb = gauge_inc (method request, "/") (registry w)
    /\ events wb = events w ++ GaugeInc (method request, "/") :: inner
    /\ List.filter is_metric inner = [].
Proof.
  run_hello. by_site env;
    (eexists (mkWorld _ _ _ _), _; split; [reflexivity|]; cbn [registry events];
     split; [reflexivity|]; split; [same_history|reflexivity]).
Qed.

Lemma hello_registry request env w :
  registry (snd (hello request env w))
  = histogram_observe (method request, "/") (t_exit env - t_enter env)%Q
      (counter_inc (method request, "/")
         (gauge_dec (method request, "/")
            (gauge_inc (method request, "/") (registry w)))).
Proof.
  destruct (hello_shape request env w) as (wb & inner & -> & Hr & _).
  cbn [snd]. unfold cleanup_world, on_registry. cbn [registry]. by rewrite Hr.
Qed.

Lemma hello_events request env w :
  exists inner,
    events (snd (hello request env w))
    = events w ++ GaugeInc (method request, "/") :: inner
        ++ [GaugeDec (method request, "/"); CounterInc (method request, "/");
            Observe (method request, "/") (t_exit env - t_enter env)%Q]
    /\ List.filter is_metric inner = [].
Proof.
  destruct (hello_shape request env w) as (wb & inner & -> & _ & He & Hi).
  exists inner. split; [|done].
  cbn [snd]. unfold cleanup_world, on_registry. cbn [events]. rewrite He.
  rewrite <- !app_assoc. cbn [app]. rewrite <- ?app_assoc. reflexivity.
Qed.

Lemma hello_outcome request env w :
  fst (hello request env w)
  = match first_raise env with Some e => Raised e | None => Returned message end.
Proof. by destruct (hello_shape request env w) as (wb & inner & -> & _). Qed.

Lemma filter_metric_hello l d inner :
  List.filter is_metric inner = [] ->
  List.filter is_metric (GaugeInc l :: inner ++ [GaugeDec l; CounterInc l; Observe l d])
  = [GaugeInc l; GaugeDec l; CounterInc l; Observe l d].
Proof. intros H. cbn [List.filter is_metric]. rewrite List.filter_app, H. reflexivity. Qed.

Lemma hello_gauge request env w l :
  gauge_value (registry (snd (hello request env w))) l = gauge_value (registry w) l.
Proof.
  rewrite hello_registry.
  change (gauge_value (gauge_dec (method request, "/")
                         (gauge_inc (method request, "/") (registry w))) l
          = gauge_value (registry w) l).
  destruct (decide ((method request, "/") = l)) as [<-|Hne].
  - rewrite gauge_value_dec, gauge_value_inc. lia.
  - by rewrite gauge_value_dec_ne, gauge_value_inc_ne.
Qed.

Lemma hello_counter request env w :
  counter_value (registry (snd (hello request env w))) (method request, "/")
  = N.succ (counter_value (registry w) (method request, "/")).
Proof.
  rewrite hello_registry.
  change (counter_value (counter_inc (method request, "/")
            (gauge_dec (method request, "/")
               (gauge_inc (method request, "/") (registry w)))) (method request, "/")
          = N.succ (counter_value (registry w) (method request, "/"))).
  by rewrite counter_value_inc.
Qed.

Lemma hello_counter_ne request env w l :
  (method request, "/") <> l ->
  counter_value (registry (snd (hello request env w))) l = counter_value (registry w) l.
Proof.
  intros Hne. rewrite hello_registry.
  change (counter_value (counter_inc (method request, "/")
            (gauge_dec (method request, "/")
               (gauge_inc (method request, "/") (registry w)))) l
          = counter_value (registry w) l).
  by rewrite counter_value_inc_ne.
Qed.

Lemma hello_histogram request env w :
  histogram_child (registry (snd (hello request env w))) (method request, "/")
  = observe (t_exit env - t_enter env)%Q
            (histogram_child (registry w) (method request, "/")).
Proof. rewrite hello_registry. by rewrite histogram_child_observe. Qed.

(** C1. Every invocation of [hello], whether the [try] block returns or one
    of its calls raises, ends with exactly one decrement of the in-flight
    gauge, one increment of the request counter and one observation of the
    elapsed time, in this order, as the last three events of the invocation
    and all for the label pair (method, "/") of the increment at entry; the
    outcome, an exception included, reaches the caller together with the
    world in which these updates are done. *)
Theorem hello_finally_runs_once (request : Request) (env : Env) (w : World) :
  let l := (method request, "/") in
  let d := (t_exit env - t_enter env)%Q in
  let r := fst (hello request env w) in
  let w' := snd (hello request env w) in
  r = match first_raise env with Some e => Raised e | None => Returned message end
  /\ (exists inner,
        events w' = events w ++ GaugeInc l :: inner
                      ++ [GaugeDec l; CounterInc l; Observe l d]
        /\ List.filter is_metric inner = [])
  /\ List.filter is_metric (new_events w w')
     = [GaugeInc l; GaugeDec l; CounterInc l; Observe l d]
  /\ gauge_value (registry w') l = gauge_value (registry w) l
  /\ counter_value (registry w') l = N.succ (counter_value (registry w) l)
  /\ histogram_child (registry w') l = observe d (histogram_child (registry w) l)
  /\ h_count (histogram_child (registry w') l)
     = N.succ (h_count (histogram_child (registry w) l)).
Proof.
  intros l d r w'. subst l d r w'.
  split; [apply hello_outcome|].
  destruct (hello_events request env w) as (inner & He & Hi).
  split; [by exists inner|].
  split; [rewrite (new_events_app _ _ _ He); by apply filter_metric_hello|].
  split; [apply hello_gauge|]. split; [apply hello_counter|].
  rewrite hello_histogram. split; [reflexivity|apply h_count_observe].
Qed.

(** A run in which [json.dumps] raises: the caller sees the exception, and the
    metrics of the request are all recorded. *)
Example hello_raising_run :
  let '(r, w') := hello (GET "/" ∅) env_dumps_raises initial_world in
  r = Raised "TypeError"
  /\ events w' = [GaugeInc GET_root; SpanStart 0 "hello-endpoint-processing";
                  SetAttribute 0 "http.method" "GET"; SetAttribute 0 "http.path" "/";
                  SpanEnd 0; GaugeDec GET_root; CounterInc GET_root;
                  Observe GET_root (1 - 0)%Q]
  /\ log_records w' = [].
Proof. vm_compute. done. Qed.

(** ** The span of one invocation *)

Lemma start_span_live name t :
  live (Trace.next_id t) name (Trace.queue t) (Trace.next_id t :: Trace.current t)
       (snd (Trace.start_span name t)).
Proof.
  eexists. cbn [Trace.start_span snd Trace.spans Trace.queue Trace.current].
  rewrite lookup_insert_eq. done.
Qed.

Lemma set_attribute_live id name q c key value t :
  live id name q c t -> live id name q c (Trace.set_attribute id key value t).
Proof.
  intros (sp & Hsp & Hname & Hended & Hq & Hc).
  unfold Trace.set_attribute. rewrite Hsp, Hended.
  eexists. cbn [Trace.spans Trace.queue Trace.current].
  rewrite lookup_insert_eq. done.
Qed.

(** Leaving the [with] block on an open span: it is ended, queued, and no
    longer current. *)
Lemma end_span_live id name q top c t :
  live id name q (top :: c) t ->
  exists sp,
    Trace.queue (Trace.end_span id (Trace.detach t)) = q ++ [sp]
    /\ Trace.spans (Trace.end_span id (Trace.detach t)) !! id = Some sp
    /\ Trace.sp_name sp = name
    /\ Trace.sp_ended sp = true
    /\ Trace.current (Trace.end_span id (Trace.detach t)) = c.
Proof.
  intros (sp & Hsp & Hname & Hended & Hq & Hc).
  unfold Trace.end_span, Trace.detach. cbn [Trace.spans]. rewrite Hsp, Hended.
  eexists. cbn [Trace.spans Trace.queue Trace.current].
  rewrite lookup_insert_eq, Hq, Hc. done.
Qed.

Lemma hello_tracer_shape request env w :
  raises env AtStartSpan = None ->
  exists t,
    tracer (snd (hello request env w))
    = Trace.end_span (Trace.next_id (tracer w)) (Trace.detach t)
    /\ live (Trace.next_id (tracer w)) "hello-endpoint-processing"
            (Trace.queue (tracer w))
            (Trace.next_id (tracer w) :: Trace.current (tracer w)) t.
Proof.
  intros Hstart. run_hello. rewrite Hstart.
  destruct (raises env AtSetMethod) eqn:?;
  [|destruct (raises env AtSetPath) eqn:?;
  [|destruct (raises env AtHeadersGet) eqn:?;
  [|destruct (raises env AtJsonDumps) eqn:?;
  [|destruct (raises env AtLoggerInfo) eqn:?]]]];
  (eexists; split; [reflexivity|];
   repeat apply set_attribute_live;
   exact (start_span_live "hello-endpoint-processing" (tracer w))).
Qed.

Lemma hello_span_events request env w :
  raises env AtStartSpan = None ->
  List.filter is_span_bound (new_events w (snd (hello request env w)))
  = [SpanStart (Trace.next_id (tracer w)) "hello-endpoint-processing";
     SpanEnd (Trace.next_id (tracer w))].
Proof.
  intros Hstart. run_hello. rewrite Hstart.
  destruct (raises env AtSetMethod) eqn:?;
  [|destruct (raises env AtSetPath) eqn:?;
  [|destruct (raises env AtHeadersGet) eqn:?;
  [|destruct (raises env AtJsonDumps) eqn:?;
  [|destruct (raises env AtLoggerInfo) eqn:?]]]];
  (erewrite new_events_app; [|cbn [events]; same_history]; reflexivity).
Qed.

(** C9. When [start_as_current_span] has opened the span of an invocation,
    the span is ended exactly once and handed to the span processor's queue
    on every path out of the [with] block: whether its body returns or any of
    its calls raises, the history of the invocation holds one start and one
    end of the span, the queue has grown by exactly this span, now ended, and
    the span is no longer the current one. *)
Theorem hello_span_closed_once (request : Request) (env : Env) (w : World) :
  raises env AtStartSpan = None ->
  let id := Trace.next_id (tracer w) in
  let w' := snd (hello request env w) in
  List.filter is_span_bound (new_events w w')
  = [SpanStart id "hello-endpoint-processing"; SpanEnd id]
  /\ (exists sp,
        Trace.queue (tracer w') = Trace.queue (tracer w) ++ [sp]
        /\ Trace.spans (tracer w') !! id = Some sp
        /\ Trace.sp_name sp = "hello-endpoint-processing"
        /\ Trace.sp_ended sp = true)
  /\ Trace.current (tracer w') = Trace.current (tracer w).
Proof.
  intros Hstart id w'. subst id w'.
  split; [by apply hello_span_events|].
  destruct (hello_tracer_shape request env w Hstart) as (t & -> & Hlive).
  destruct (end_span_live _ _ _ _ _ _ Hlive) as (sp & Hq & Hs & Hn & He & Hc).
  split; [by exists sp|done].
Qed.

Lemma hello_span_closed_once_witness :
  raises env_dumps_raises AtStartSpan = None
  /\ fst (hello (GET "/" ∅) env_dumps_raises initial_world) = Raised "TypeError"
  /\ (let id := Trace.next_id (tracer initial_world) in
      let w' := snd (hello (GET "/" ∅) env_dumps_raises initial_world) in
      List.filter is_span_bound (new_events initial_world w')
      = [SpanStart id "hello-endpoint-processing"; SpanEnd id]
      /\ (exists sp,
            Trace.queue (tracer w') = Trace.queue (tracer initial_world) ++ [sp]
            /\ Trace.spans (tracer w') !! id = Some sp
            /\ Trace.sp_name sp = "hello-endpoint-processing"
            /\ Trace.sp_ended sp = true)
      /\ Trace.current (tracer w') = Trace.current (tracer initial_world)).
Proof.
  split; [reflexivity|]. split; [reflexivity|].
  apply (hello_span_closed_once (GET "/" ∅) env_dumps_raises initial_world).
  reflexivity.
Defined.

(** ** Histories and the registry *)

Lemma replay_app evs1 evs2 r : replay (evs1 ++ evs2) r = replay evs2 (replay evs1 r).
Proof. unfold replay. apply foldl_app. Qed.

Lemma replay_not_metric evs r : List.filter is_metric evs = [] -> replay evs r = r.
Proof.
  revert r. induction evs as [|e evs IH]; intros r; [done|].
  cbn [List.filter]. destruct e; cbn [is_metric]; try discriminate; apply IH.
Qed.

Lemma gauge_net_app l evs1 evs2 :
  gauge_net l (evs1 ++ evs2) = (gauge_net l evs1 + gauge_net l evs2)%Z.
Proof.
  induction evs1 as [|e evs1 IH]; [done|].
  unfold gauge_net, tally in *. cbn [app foldr]. rewrite IH. lia.
Qed.

Lemma gauge_net_not_metric l evs : List.filter is_metric evs = [] -> gauge_net l evs = 0%Z.
Proof.
  induction evs as [|e evs IH]; [done|].
  cbn [List.filter]. destruct e; cbn [is_metric]; try discriminate;
    intros H; unfold gauge_net, tally in *; cbn [foldr gauge_step]; rewrite (IH H); lia.
Qed.

Lemma filter_take_nil (evs : list Event) k :
  List.filter is_metric evs = [] -> List.filter is_metric (take k evs) = [].
Proof.
  revert k. induction evs as [|e evs IH]; intros [|k]; try done.
  cbn [List.filter take]. destruct (is_metric e); [discriminate|]. apply IH.
Qed.

(** The gauge after a history is the gauge before it plus its net change. *)
Lemma gauge_value_replay l evs r :
  gauge_value (replay evs r) l = (gauge_value r l + gauge_net l evs)%Z.
Proof.
  revert r. induction evs as [|e evs IH]; intros r.
  - unfold gauge_net, tally. cbn. lia.
  - change (replay (e :: evs) r) with (replay evs (apply_event e r)).
    rewrite IH. unfold gauge_net at 2, tally. cbn [foldr]. fold (tally (gauge_step l) evs).
    fold (gauge_net l evs).
    destruct e; cbn [apply_event gauge_step]; try (destruct (decide (l0 = l)) as [->|]);
      rewrite ?gauge_value_inc, ?gauge_value_dec,
              ?gauge_value_inc_ne, ?gauge_value_dec_ne by done;
      try lia; reflexivity.
Qed.

(** Within one invocation the gauge of no series is ever below its value at
    entry: the increment comes first, the decrement after the [try] block. *)
Lemma gauge_net_hello_prefix l0 l d inner k :
  List.filter is_metric inner = [] ->
  (0 <= gauge_net l0 (take k (GaugeInc l :: inner
                               ++ [GaugeDec l; CounterInc l; Observe l d])))%Z.
Proof.
  intros Hi. destruct k as [|k]; [done|].
  cbn [take]. rewrite take_app.
  change (GaugeInc l :: ?a ++ ?b) with ([GaugeInc l] ++ a ++ b).
  rewrite !gauge_net_app, (gauge_net_not_metric _ _ (filter_take_nil _ _ Hi)).
  generalize (k - length inner)%nat. intros j.
  destruct j as [|[|[|[|j]]]]; unfold gauge_net, tally; cbn [take foldr gauge_step];
    destruct (decide (l = l0)); lia.
Qed.

Lemma gauge_net_hello l0 l d inner :
  List.filter is_metric inner = [] ->
  gauge_net l0 (GaugeInc l :: inner ++ [GaugeDec l; CounterInc l; Observe l d]) = 0%Z.
Proof.
  intros Hi. change (GaugeInc l :: ?a ++ ?b) with ([GaugeInc l] ++ a ++ b).
  rewrite !gauge_net_app, (gauge_net_not_metric _ _ Hi).
  unfold gauge_net, tally; cbn [foldr gauge_step]. destruct (decide (l = l0)); lia.
Qed.

Lemma replay_hello l d inner r :
  List.filter is_metric inner = [] ->
  replay (GaugeInc l :: inner ++ [GaugeDec l; CounterInc l; Observe l d]) r
  = histogram_observe l d (counter_inc l (gauge_dec l (gauge_inc l r))).
Proof.
  intros Hi. change (GaugeInc l :: ?a ++ ?b) with ([GaugeInc l] ++ a ++ b).
  rewrite !replay_app, (replay_not_metric _ _ Hi). reflexivity.
Qed.

(** ** Invocations one after the other *)

(** A run of invocations extends the history, and the registry it ends in is
    the replay of what it added. *)
Lemma hello_all_history jobs w :
  exists delta,
    events (hello_all jobs w) = events w ++ delta
    /\ registry (hello_all jobs w) = replay delta (registry w)
    /\ (forall l, gauge_net l delta = 0%Z)
    /\ (forall l k, (0 <= gauge_net l (take k delta))%Z).
Proof.
  revert w. induction jobs as [|[request env] jobs IH]; intros w.
  - exists []. cbn [hello_all]. rewrite app_nil_r.
    repeat split; try done. intros l k. by rewrite take_nil.
  - cbn [hello_all].
    destruct (hello_events request env w) as (inner & He & Hi).
    destruct (IH (snd (hello request env w))) as (delta & Hd & Hr & Hn & Hp).
    eexists (_ ++ delta). rewrite Hd, He, Hr, hello_registry, <- app_assoc.
    split; [reflexivity|]. split; [|split].
    + by rewrite replay_app, replay_hello.
    + intros l. by rewrite gauge_net_app, gauge_net_hello, Hn.
    + intros l k. rewrite take_app, gauge_net_app.
      pose proof (gauge_net_hello_prefix l (method request, "/")
                    (t_exit env - t_enter env)%Q inner k Hi).
      pose proof (Hp l (k - length (GaugeInc (method request, "/") :: inner ++
                     [GaugeDec (method request, "/"); CounterInc (method request, "/");
                      Observe (method request, "/") (t_exit env - t_enter env)%Q]))%nat).
      lia.
Qed.

Lemma observations_app l evs1 evs2 :
  observations l (evs1 ++ evs2) = observations l evs1 ++ observations l evs2.
Proof.
  induction evs1 as [|e evs1 IH]; [done|].
  destruct e; cbn [app observations]; try apply IH.
  destruct (decide (l0 = l)); [cbn [app]; f_equal|]; apply IH.
Qed.

Lemma observations_not_metric l evs :
  List.filter is_metric evs = [] -> observations l evs = [].
Proof.
  induction evs as [|e evs IH]; [done|].
  cbn [List.filter]. destruct e; cbn [is_metric observations]; try discriminate; apply IH.
Qed.

Lemma observations_hello l d inner :
  List.filter is_metric inner = [] ->
  observations l (GaugeInc l :: inner ++ [GaugeDec l; CounterInc l; Observe l d]) = [d].
Proof.
  intros Hi. cbn [observations]. rewrite observations_app, (observations_not_metric _ _ Hi).
  cbn [observations app]. by rewrite decide_True.
Qed.

Lemma hello_all_counter jobs w :
  Forall (fun job => method (fst job) = "GET") jobs ->
  counter_value (registry (hello_all jobs w)) GET_root
  = (counter_value (registry w) GET_root + N.of_nat (length jobs))%N.
Proof.
  intros Hget. revert w.
  induction Hget as [|[request env] jobs Hm _ IH]; intros w; cbn [hello_all length].
  - lia.
  - cbn [fst] in Hm. rewrite IH. unfold GET_root. rewrite <- Hm, hello_counter. lia.
Qed.

Lemma hello_all_gauge jobs w l :
  gauge_value (registry (hello_all jobs w)) l = gauge_value (registry w) l.
Proof.
  revert w. induction jobs as [|[request env] jobs IH]; intros w; cbn [hello_all]; [done|].
  by rewrite IH, hello_gauge.
Qed.

Lemma hello_all_h_count jobs w :
  Forall (fun job => method (fst job) = "GET") jobs ->
  h_count (histogram_child (registry (hello_all jobs w)) GET_root)
  = (h_count (histogram_child (registry w) GET_root) + N.of_nat (length jobs))%N.
Proof.
  intros Hget. revert w.
  induction Hget as [|[request env] jobs Hm _ IH]; intros w; cbn [hello_all length].
  - lia.
  - cbn [fst] in Hm. rewrite IH. unfold GET_root.
    rewrite <- Hm, hello_histogram, h_count_observe. lia.
Qed.

Lemma hello_all_observations jobs w :
  Forall (fun job => method (fst job) = "GET") jobs ->
  observations GET_root (new_events w (hello_all jobs w))
  = map (fun job => (t_exit (snd job) - t_enter (snd job))%Q) jobs.
Proof.
  intros Hget. revert w.
  induction Hget as [|[request env] jobs Hm _ IH]; intros w; cbn [hello_all map].
  - unfold new_events. by rewrite drop_all.
  - cbn [fst] in Hm. cbn [snd].
    destruct (hello_events request env w) as (inner & He & Hi).
    destruct (hello_all_history jobs (snd (hello request env w))) as (delta & Hd & _).
    rewrite <- (IH (snd (hello request env w))).
    rewrite (new_events_app _ _ _ Hd).
    rewrite He, <- app_assoc in Hd. rewrite (new_events_app _ _ _ Hd).
    rewrite observations_app, Hm. unfold GET_root.
    by rewrite observations_hello.
Qed.

(** ** Overlapping invocations *)

Lemma tally_app step evs1 evs2 :
  tally step (evs1 ++ evs2) = (tally step evs1 + tally step evs2)%Z.
Proof.
  induction evs1 as [|e evs1 IH]; [done|].
  unfold tally in *. cbn [app foldr]. rewrite IH. lia.
Qed.

Lemma sum_Z_app zs1 zs2 : sum_Z (zs1 ++ zs2) = (sum_Z zs1 + sum_Z zs2)%Z.
Proof.
  induction zs1 as [|z zs1 IH]; [done|].
  unfold sum_Z in *. cbn [app foldr]. rewrite IH. lia.
Qed.

(** A schedule contributes what its threads contribute together. *)
Lemma tally_interleaving step ts tr :
  interleaving ts tr -> tally step tr = sum_Z (map (tally step) ts).
Proof.
  induction 1 as [ts Hnil|ts1 x t ts2 tr _ IH].
  - induction Hnil as [|t ts -> _ IH]; [done|].
    cbn [map]. unfold sum_Z in *. cbn [foldr]. by rewrite <- IH.
  - rewrite map_app, sum_Z_app in *. cbn [map] in *.
    unfold sum_Z at 2 in IH. unfold sum_Z at 2. cbn [foldr] in *.
    fold (sum_Z (map (tally step) ts2)) in *.
    unfold tally at 1 3. cbn [foldr]. fold (tally step tr). fold (tally step t). lia.
Qed.

(** The first [k] events of a schedule are a schedule of what its threads
    have done by then: a prefix of each. *)
Lemma interleaving_take {A : Type} (ts : list (list A)) tr k :
  interleaving ts tr ->
  exists ps, Forall2 (fun p t => exists j, p = take j t) ps ts
             /\ interleaving ps (take k tr).
Proof.
  intros Hint. revert k.
  induction Hint as [ts Hnil|ts1 x t ts2 tr _ IH]; intros k.
  - exists ts. split.
    + clear. induction ts as [|t ts IH]; constructor; [|exact IH].
      exists (length t). by rewrite take_ge.
    + rewrite take_nil. by constructor.
  - destruct k as [|k].
    + exists (map (fun _ => []) (ts1 ++ (x :: t) :: ts2)). split.
      * generalize (ts1 ++ (x :: t) :: ts2). intros ts.
        induction ts as [|t' ts IH']; constructor; [|exact IH'].
        by exists 0.
      * cbn [take]. constructor. apply Forall_fmap. by apply Forall_true.
    + destruct (IH k) as (ps & Hps & Hk).
      apply Forall2_app_inv_r in Hps as (ps1 & ps2' & H1 & H2 & ->).
      apply Forall2_cons_inv_r in H2 as (p & ps2 & [j Hj] & H2 & ->).
      exists (ps1 ++ (x :: p) :: ps2). split.
      * apply Forall2_app; [exact H1|]. constructor; [|exact H2].
        exists (S j). cbn [take]. by rewrite Hj.
      * cbn [take]. by constructor.
Qed.

Lemma sum_Z_nonneg zs : Forall (fun z => (0 <= z)%Z) zs -> (0 <= sum_Z zs)%Z.
Proof.
  induction 1 as [|z zs Hz _ IH]; [done|]. unfold sum_Z in *. cbn [foldr]. lia.
Qed.

Lemma metric_calls_eq job :
  metric_calls job
  = [GaugeInc (method (fst job), "/"); GaugeDec (method (fst job), "/");
     CounterInc (method (fst job), "/");
     Observe (method (fst job), "/") (t_exit (snd job) - t_enter (snd job))%Q].
Proof.
  unfold metric_calls.
  destruct (hello_events (fst job) (snd job) initial_world) as (inner & -> & Hi).
  cbn [events initial_world app]. by apply filter_metric_hello.
Qed.

(** In whatever world an invocation runs, its calls on the metrics are the
    same. *)
Lemma metric_calls_any_world request env w :
  List.filter is_metric (new_events w (snd (hello request env w)))
  = metric_calls (request, env).
Proof.
  rewrite metric_calls_eq. cbn [fst snd].
  destruct (hello_events request env w) as (inner & He & Hi).
  rewrite (new_events_app _ _ _ He). by apply filter_metric_hello.
Qed.

Lemma gauge_net_metric_calls_prefix l job j :
  (0 <= gauge_net l (take j (metric_calls job)))%Z.
Proof.
  rewrite metric_calls_eq.
  apply (gauge_net_hello_prefix l (method (fst job), "/")
           (t_exit (snd job) - t_enter (snd job))%Q [] j eq_refl).
Qed.

Lemma gauge_net_metric_calls l job : gauge_net l (metric_calls job) = 0%Z.
Proof.
  rewrite metric_calls_eq.
  apply (gauge_net_hello l (method (fst job), "/")
           (t_exit (snd job) - t_enter (snd job))%Q [] eq_refl).
Qed.

Lemma counter_value_replay l evs r :
  Z.of_N (counter_value (replay evs r) l)
  = (Z.of_N (counter_value r l) + tally (counter_step l) evs)%Z.
Proof.
  revert r. induction evs as [|e evs IH]; intros r.
  - unfold tally. cbn. lia.
  - change (replay (e :: evs) r) with (replay evs (apply_event e r)).
    rewrite IH. unfold tally. cbn [foldr]. fold (tally (counter_step l) evs).
    destruct e; cbn [apply_event counter_step]; try (destruct (decide (l0 = l)) as [->|]);
      rewrite ?counter_value_inc, ?counter_value_inc_ne by done;
      try lia; reflexivity.
Qed.

Lemma h_count_replay l evs r :
  Z.of_N (h_count (histogram_child (replay evs r) l))
  = (Z.of_N (h_count (histogram_child r l)) + tally (observe_step l) evs)%Z.
Proof.
  revert r. induction evs as [|e evs IH]; intros r.
  - unfold tally. cbn. lia.
  - change (replay (e :: evs) r) with (replay evs (apply_event e r)).
    rewrite IH. unfold tally. cbn [foldr]. fold (tally (observe_step l) evs).
    destruct e; cbn [apply_event observe_step]; try (destruct (decide (l0 = l)) as [->|]);
      rewrite ?histogram_child_observe, ?h_count_observe,
              ?histogram_child_observe_ne by done;
      try lia; reflexivity.
Qed.

Lemma sum_gauge_net_jobs l jobs :
  sum_Z (map (tally (gauge_step l)) (map metric_calls jobs)) = 0%Z.
Proof.
  induction jobs as [|job jobs IH]; [done|].
  cbn [map]. unfold sum_Z in *. cbn [foldr]. rewrite IH.
  pose proof (gauge_net_metric_calls l job) as H. unfold gauge_net in H. lia.
Qed.

Lemma sum_counter_jobs jobs :
  Forall (fun job => method (fst job) = "GET") jobs ->
  sum_Z (map (tally (counter_step GET_root)) (map metric_calls jobs))
  = Z.of_nat (length jobs)
  /\ sum_Z (map (tally (observe_step GET_root)) (map metric_calls jobs))
     = Z.of_nat (length jobs).
Proof.
  induction 1 as [|job jobs Hm _ [IH1 IH2]]; [done|].
  cbn [map length]. unfold sum_Z in *. cbn [foldr]. rewrite IH1, IH2.
  rewrite metric_calls_eq, Hm. unfold tally. cbn [foldr counter_step observe_step].
  unfold GET_root. rewrite !decide_True by done. lia.
Qed.

(** Overlapping invocations: whatever the schedule of their calls on the
    metrics, the gauge of a series is never below its value at the start and
    is back at it at the end, and counter and histogram of (GET, /) have
    counted every invocation. *)
Lemma overlapping_invocations jobs tr r :
  interleaving (map metric_calls jobs) tr ->
  (forall l, gauge_value (replay tr r) l = gauge_value r l)
  /\ (forall l k, (gauge_value r l <= gauge_value (replay (take k tr) r) l)%Z)
  /\ (Forall (fun job => method (fst job) = "GET") jobs ->
      counter_value (replay tr r) GET_root
      = (counter_value r GET_root + N.of_nat (length jobs))%N
      /\ h_count (histogram_child (replay tr r) GET_root)
         = (h_count (histogram_child r GET_root) + N.of_nat (length jobs))%N).
Proof.
  intros Hint. split; [|split].
  - intros l. rewrite gauge_value_replay. unfold gauge_net.
    rewrite (tally_interleaving _ _ _ Hint), sum_gauge_net_jobs. lia.
  - intros l k. rewrite gauge_value_replay.
    destruct (interleaving_take _ _ k Hint) as (ps & Hps & Hk).
    unfold gauge_net. rewrite (tally_interleaving _ _ _ Hk).
    assert (0 <= sum_Z (map (tally (gauge_step l)) ps))%Z; [|lia].
    apply sum_Z_nonneg, Forall_fmap.
    apply Forall2_fmap_r in Hps.
    eapply Forall2_Forall_l; [exact Hps|]. apply Forall_true.
    intros job p [j ->]. apply gauge_net_metric_calls_prefix.
  - intros Hget. destruct (sum_counter_jobs jobs Hget) as [Hc Ho].
    pose proof (counter_value_replay GET_root tr r) as H1.
    pose proof (h_count_replay GET_root tr r) as H2.
    rewrite (tally_interleaving _ _ _ Hint), Hc in H1.
    rewrite (tally_interleaving _ _ _ Hint), Ho in H2. lia.
Qed.

(** ** Gauge, counter and histogram over many invocations *)

(** A schedule of two overlapping invocations: the second starts before
    the first has left its [try] block. *)
Example overlap_schedule :
  interleaving
    (map metric_calls [(GET "/" ∅, calm 0 3); (GET "/" ∅, calm 1 2)])
    [GaugeInc GET_root; GaugeInc GET_root; GaugeDec GET_root; CounterInc GET_root;
     GaugeDec GET_root; Observe GET_root (2 - 1)%Q; CounterInc GET_root;
     Observe GET_root (3 - 0)%Q].
Proof.
  rewrite !map_cons, !metric_calls_eq. cbn [map fst snd method GET calm t_exit t_enter].
  fold GET_root.
  apply (interleaving_step [] _ _ [_]).
  apply (interleaving_step [_] _ _ []).
  apply (interleaving_step [_] _ _ []).
  apply (interleaving_step [_] _ _ []).
  apply (interleaving_step [] _ _ [_]).
  apply (interleaving_step [_] _ _ []).
  apply (interleaving_step [] _ _ [_]).
  apply (interleaving_step [] _ _ [_]).
  apply interleaving_done. by repeat constructor.
Qed.

(** C2. After any number N of invocations of [hello] for GET requests that
    have all run to their end, the in-flight gauge of the series (GET, /) is
    back at the value it had before them and the request counter of that
    series has grown by exactly N.  This holds when the invocations run one
    after the other, and for every schedule of their calls on the metrics
    when they overlap. *)
Theorem hello_all_gauge_and_counter (jobs : list (Request * Env)) (w : World) :
  Forall (fun job => method (fst job) = "GET") jobs ->
  (gauge_value (registry (hello_all jobs w)) GET_root = gauge_value (registry w) GET_root
   /\ counter_value (registry (hello_all jobs w)) GET_root
      = (counter_value (registry w) GET_root + N.of_nat (length jobs))%N)
  /\ (forall tr, interleaving (map metric_calls jobs) tr ->
       gauge_value (replay tr (registry w)) GET_root = gauge_value (registry w) GET_root
       /\ counter_value (replay tr (registry w)) GET_root
          = (counter_value (registry w) GET_root + N.of_nat (length jobs))%N).
Proof.
  intros Hget. split.
  - split; [apply hello_all_gauge|by apply hello_all_counter].
  - intros tr Hint.
    destruct (overlapping_invocations jobs tr (registry w) Hint) as (Hg & _ & Hc).
    split; [apply Hg|apply (Hc Hget)].
Qed.

Lemma hello_all_gauge_and_counter_witness :
  Forall (fun job => method (fst job) = "GET")
         [(GET "/" ∅, calm 0 1); (GET "/" ∅, env_dumps_raises); (GET "/" ∅, calm 2 3)]
  /\ gauge_value (registry (hello_all
        [(GET "/" ∅, calm 0 1); (GET "/" ∅, env_dumps_raises); (GET "/" ∅, calm 2 3)]
        initial_world)) GET_root = gauge_value (registry initial_world) GET_root
  /\ counter_value (registry (hello_all
        [(GET "/" ∅, calm 0 1); (GET "/" ∅, env_dumps_raises); (GET "/" ∅, calm 2 3)]
        initial_world)) GET_root
     = (counter_value (registry initial_world) GET_root + N.of_nat 3)%N.
Proof.
  assert (H : Forall (fun job : Request * Env => method (fst job) = "GET")
                [(GET "/" ∅, calm 0 1); (GET "/" ∅, env_dumps_raises);
                 (GET "/" ∅, calm 2 3)])
    by (repeat constructor).
  split; [exact H|].
  exact (proj1 (hello_all_gauge_and_counter _ initial_world H)).
Defined.

(** C10. From a gauge of zero for the series (GET, /), invocations of
    [hello] never take that gauge below zero.  Run one after the other: the
    registry after any number [k] of the calls of the run, which is the
    replay of the first [k] events the run added to the history, has a
    non-negative gauge (and the replay of all of them is the registry the
    run ends in).  Overlapping: the same after the first [k] calls of any
    schedule.  In both cases because each invocation increments before it
    decrements. *)
Theorem gauge_never_negative (jobs : list (Request * Env)) (w : World) (k : nat) :
  gauge_value (registry w) GET_root = 0%Z ->
  (registry (hello_all jobs w) = replay (new_events w (hello_all jobs w)) (registry w)
   /\ (0 <= gauge_value (replay (take k (new_events w (hello_all jobs w))) (registry w))
                        GET_root)%Z)
  /\ (forall tr, interleaving (map metric_calls jobs) tr ->
       (0 <= gauge_value (replay (take k tr) (registry w)) GET_root)%Z).
Proof.
  intros Hzero. split.
  - destruct (hello_all_history jobs w) as (delta & Hd & Hr & _ & Hp).
    rewrite (new_events_app _ _ _ Hd). split; [exact Hr|].
    rewrite gauge_value_replay, Hzero. specialize (Hp GET_root k). lia.
  - intros tr Hint.
    destruct (overlapping_invocations jobs tr (registry w) Hint) as (_ & Hp & _).
    specialize (Hp GET_root k). lia.
Qed.

Lemma gauge_never_negative_witness :
  gauge_value (registry initial_world) GET_root = 0%Z
  /\ (0 <= gauge_value
            (replay (take 6 (new_events initial_world
                       (hello_all [(GET "/" ∅, calm 0 1); (GET "/" ∅, env_dumps_raises)]
                                  initial_world)))
                    (registry initial_world)) GET_root)%Z.
Proof.
  split; [reflexivity|].
  exact (proj2 (proj1 (gauge_never_negative
           [(GET "/" ∅, calm 0 1); (GET "/" ∅, env_dumps_raises)] initial_world 6
           eq_refl))).
Defined.

(** ** The latency histogram *)

(** The claim of C7 that every observed value is non-negative fails when the
    wall clock is set back while a request is served: [time.time()] then
    returns less at line 99 than it did at line 65, and the difference, here
    3 - 5, is observed. *)
Lemma clock_set_back_observes_negative :
  observations GET_root
    (new_events initial_world (hello_all [(GET "/" ∅, env_clock_set_back)] initial_world))
  = [(3 - 5)%Q]
  /\ ~ Forall (fun v => (0 <= v)%Q)
         (observations GET_root
            (new_events initial_world
               (hello_all [(GET "/" ∅, env_clock_set_back)] initial_world))).
Proof.
  assert (H : observations GET_root
      (new_events initial_world (hello_all [(GET "/" ∅, env_clock_set_back)] initial_world))
    = [(3 - 5)%Q]) by (vm_compute; reflexivity).
  split; [exact H|]. rewrite H. intros Hall.
  apply Forall_inv in Hall. vm_compute in Hall. by apply Hall.
Qed.

(** C7, amended. After N invocations of [hello] for GET requests the latency
    histogram of the series (GET, /) has recorded exactly N observations
    more than before, whatever the clock did, and whether the invocations
    ran one after the other or overlapped; the observed values are, request
    by request, the reading of the clock at exit minus the reading at entry,
    so the value observed for a request is non-negative provided the clock
    did not go back during that request. *)
Theorem hello_all_latency (jobs : list (Request * Env)) (w : World) :
  Forall (fun job => method (fst job) = "GET") jobs ->
  h_count (histogram_child (registry (hello_all jobs w)) GET_root)
  = (h_count (histogram_child (registry w) GET_root) + N.of_nat (length jobs))%N
  /\ observations GET_root (new_events w (hello_all jobs w))
     = map (fun job => (t_exit (snd job) - t_enter (snd job))%Q) jobs
  /\ Forall2 (fun job v => (t_enter (snd job) <= t_exit (snd job))%Q -> (0 <= v)%Q)
             jobs (observations GET_root (new_events w (hello_all jobs w)))
  /\ (forall tr, interleaving (map metric_calls jobs) tr ->
       h_count (histogram_child (replay tr (registry w)) GET_root)
       = (h_count (histogram_child (registry w) GET_root) + N.of_nat (length jobs))%N).
Proof.
  intros Hget.
  split; [by apply hello_all_h_count|].
  rewrite hello_all_observations by done. split; [done|]. split.
  - apply Forall2_fmap_r, Forall_Forall2_diag, Forall_forall.
    intros [request env] _ Hle. cbn [snd] in *. unfold Qminus.
    apply (proj1 (Qle_minus_iff _ _)). exact Hle.
  - intros tr Hint.
    destruct (overlapping_invocations jobs tr (registry w) Hint) as (_ & _ & Hc).
    apply (Hc Hget).
Qed.

Lemma hello_all_latency_witness :
  Forall (fun job => method (fst job) = "GET")
         [(GET "/" ∅, calm 0 1); (GET "/" ∅, env_clock_set_back);
          (GET "/" ∅, env_dumps_raises)]
  /\ h_count (histogram_child (registry (hello_all
        [(GET "/" ∅, calm 0 1); (GET "/" ∅, env_clock_set_back);
         (GET "/" ∅, env_dumps_raises)] initial_world)) GET_root)
     = (h_count (histogram_child (registry initial_world) GET_root) + N.of_nat 3)%N.
Proof.
  assert (H1 : Forall (fun job : Request * Env => method (fst job) = "GET")
                 [(GET "/" ∅, calm 0 1); (GET "/" ∅, env_clock_set_back);
                  (GET "/" ∅, env_dumps_raises)])
    by (repeat constructor).
  split; [exact H1|].
  exact (proj1 (hello_all_latency _ initial_world H1)).
Defined.

(** The claim of C6 fails: a negative amount is recorded like any other.
    Nothing on the path from line 99 into [Histogram.observe] looks at the
    sign, and no exception of the kind named in the claim exists. *)
Lemma observe_negative_is_recorded :
  (-1 < 0)%Q
  /\ fst (request_latency_observe GET_root (-1) initial_world) = Returned tt
  /\ h_count (histogram_child
                (registry (snd (request_latency_observe GET_root (-1) initial_world)))
                GET_root) = 1%N
  /\ observations GET_root
       (events (snd (request_latency_observe GET_root (-1) initial_world))) = [(-1)%Q].
Proof. split; [reflexivity|]. vm_compute. done. Qed.

(** C6, amended. [observe] on the latency histogram never fails: for every
    amount, negative ones included, the call returns, the series has one
    observation more and its sum has grown by the amount. *)
Theorem observe_records_every_amount (l : LabelValues) (amount : Q) (w : World) :
  fst (request_latency_observe l amount w) = Returned tt
  /\ h_count (histogram_child (registry (snd (request_latency_observe l amount w))) l)
     = N.succ (h_count (histogram_child (registry w) l))
  /\ h_sum (histogram_child (registry (snd (request_latency_observe l amount w))) l)
     = (h_sum (histogram_child (registry w) l) + amount)%Q
  /\ events (snd (request_latency_observe l amount w)) = events w ++ [Observe l amount].
Proof.
  unfold request_latency_observe, effect, on_registry. cbn [fst snd registry events].
  rewrite histogram_child_observe, h_count_observe, h_sum_observe. done.
Qed.

(** ** The log record *)

Lemma append_assoc (s1 s2 s3 : string) : s1 +:+ (s2 +:+ s3) = (s1 +:+ s2) +:+ s3.
Proof.
  induction s1 as [|c s1 IH]; [done|].
  change (String c s1 +:+ ?s) with (String c (s1 +:+ s)). by rewrite IH.
Qed.








(** Reading undoes escaping, whatever the characters of the string. *)
Lemma scanstring_escape_all s rest :
  Json.scanstring (Json.escape_all s +:+ String Json.quote rest) = Some (s, rest).
Proof.
  induction s as [|c s IH].
  - reflexivity.
  - cbn [Json.escape_all]. rewrite <- append_assoc.
    generalize dependent (Json.escape_all s +:+ String Json.quote rest).
    intros tail IH.
    destruct c as [[] [] [] [] [] [] [] []];
      (match goal with
       | |- _ = Some (String ?c s, rest) =>
           change (Json.consed c (Json.scanstring tail) = Some (String c s, rest))
       end; rewrite IH; reflexivity).
Qed.

Lemma length_append (s1 s2 : string) :
  String.length (s1 +:+ s2) = String.length s1 + String.length s2.
Proof.
  induction s1 as [|c s1 IH]; [done|].
  change (String c s1 +:+ s2) with (String c (s1 +:+ s2)). cbn [String.length].
  by rewrite IH.
Qed.

Lemma item_shape kv tail :
  Json.item kv +:+ tail
  = String Json.quote
      (Json.escape_all (fst kv)
       +:+ String Json.quote
             (String ":" (String " " (String Json.quote
                (Json.escape_all (snd kv) +:+ String Json.quote tail))))).
Proof.
  unfold Json.item, Json.encode_basestring_ascii.
  generalize (Json.escape_all (fst kv)) (Json.escape_all (snd kv)). intros a b.
  repeat match goal with
         | |- context [String ?c ?x +:+ ?y] =>
             change (String c x +:+ y) with (String c (x +:+ y))
         | |- context [EmptyString +:+ ?y] => change (EmptyString +:+ y) with y
         | _ => rewrite <- append_assoc
         end.
  reflexivity.
Qed.

Lemma read_items_items d fuel :
  d <> [] -> length d <= fuel ->
  Json.read_items fuel (Json.items d +:+ "}") = Some d.
Proof.
  revert fuel. induction d as [|kv [|kv' d] IH]; intros fuel Hne Hfuel; [done| |].
  - destruct fuel as [|fuel]; [cbn in Hfuel; lia|].
    cbn [Json.items]. rewrite item_shape. cbn [Json.read_items].
    rewrite Ascii.eqb_refl, scanstring_escape_all.
    cbn [Ascii.eqb Bool.eqb andb]. rewrite Ascii.eqb_refl, scanstring_escape_all.
    destruct kv. reflexivity.
  - destruct fuel as [|fuel]; [cbn in Hfuel; lia|].
    change (Json.items (kv :: kv' :: d))
      with (Json.item kv +:+ ", " +:+ Json.items (kv' :: d)).
    rewrite <- !append_assoc, item_shape. cbn [Json.read_items].
    rewrite Ascii.eqb_refl, scanstring_escape_all.
    cbn [Ascii.eqb Bool.eqb andb]. rewrite Ascii.eqb_refl, scanstring_escape_all.
    change (", " +:+ ?t) with (String "," (String " " t)).
    cbn [Ascii.eqb Bool.eqb andb].
    rewrite IH; [by destruct kv|done|cbn [length] in *; lia].
Qed.

Lemma items_length d : length d <= String.length (Json.items d +:+ "}").
Proof.
  induction d as [|kv [|kv' d] IH]; [cbn; lia| |].
  - cbn [Json.items]. rewrite item_shape. cbn [String.length length].
    apply le_n_S, Nat.le_0_l.
  - change (Json.items (kv :: kv' :: d))
      with (Json.item kv +:+ ", " +:+ Json.items (kv' :: d)).
    rewrite <- !append_assoc, item_shape.
    repeat first [rewrite length_append | progress (cbn [String.length String.append])].
    rewrite length_append in IH. cbn [String.length length] in *. lia.
Qed.

(** What [dumps] writes, [loads] reads back: the same items, in the same
    order, with the same strings. *)
Lemma loads_dumps d : Json.loads (Json.dumps d) = Some d.
Proof.
  destruct d as [|kv d]; [reflexivity|].
  unfold Json.dumps, Json.loads.
  change ("{" +:+ ?t) with (String "{" t). cbv beta iota.
  change (Ascii.eqb "{" "{") with true. cbv beta iota.
  pose proof (read_items_items (kv :: d) (String.length (Json.items (kv :: d) +:+ "}")))
    as H.
  rewrite H by (done || apply items_length).
  destruct (Json.items (kv :: d) +:+ "}") as [|c [|c' t]] eqn:E; try reflexivity.
  exfalso. destruct d as [|kv' d].
  - cbn [Json.items] in E. rewrite item_shape in E.
    injection E as _ E. by destruct (Json.escape_all (fst kv)).
  - change (Json.items (kv :: kv' :: d))
      with (Json.item kv +:+ ", " +:+ Json.items (kv' :: d)) in E.
    rewrite <- !append_assoc, item_shape in E.
    injection E as _ E. by destruct (Json.escape_all (fst kv)).
Qed.

Lemma headers_get_request_id request :
  headers_get request "X-Request-ID" "N/A"
  = match environ request !! "HTTP_X_REQUEST_ID" with Some v => v | None => "N/A" end.
Proof. unfold headers_get. by destruct (environ request !! _). Qed.

Lemma hello_log request env w :
  no_raise env ->
  log_records (snd (hello request env w))
  = log_records w
      ++ [Json.dumps (log_entry (method request) "/"
                                (headers_get request "X-Request-ID" "N/A"))]
  /\ List.filter is_log (new_events w (snd (hello request env w)))
     = [LogInfo (Json.dumps (log_entry (method request) "/"
                                       (headers_get request "X-Request-ID" "N/A")))].
Proof.
  intros Hcalm. run_hello. rewrite !Hcalm. cbn [log_records]. split; [reflexivity|].
  erewrite new_events_app; [|cbn [events]; same_history]. reflexivity.
Qed.

(** Whatever raises, an invocation hands at most one record to the logger. *)
Lemma hello_log_at_most_once request env w :
  exists lines,
    log_records (snd (hello request env w)) = log_records w ++ lines
    /\ length lines <= 1.
Proof.
  run_hello. by_site env; cbn [log_records];
    first [ exists []; rewrite app_nil_r; split; [reflexivity|cbn; lia]
          | eexists [_]; split; [reflexivity|cbn; lia] ].
Qed.





(** C5. In an invocation of [hello] in which no call of the [try] block
    raises, the record handed to the logger is the [json.dumps] text of a dict
    whose request_id field is the value of the X-Request-ID header, as it
    stands in the WSGI environment, when the request has that header, and
    the fixed string N/A when it has not; reading the text back as JSON
    gives that very value for the field. *)
Theorem hello_logs_request_id (request : Request) (env : Env) (w : World) :
  no_raise env ->
  let request_id :=
    match environ request !! "HTTP_X_REQUEST_ID" with Some v => v | None => "N/A" end in
  let entry := log_entry (method request) "/" request_id in
  log_records (snd (hello request env w)) = log_records w ++ [Json.dumps entry]
  /\ field "request_id" entry = Some request_id
  /\ match Json.loads (Json.dumps entry) with
     | Some d => field "request_id" d
     | None => None
     end = Some request_id.
Proof.
  intros Hcalm request_id entry. subst request_id entry.
  destruct (hello_log request env w Hcalm) as [Hl _].
  rewrite headers_get_request_id in Hl. split; [exact Hl|].
  split; [reflexivity|]. by rewrite loads_dumps.
Qed.

Lemma hello_logs_request_id_witness :
  no_raise (calm 0 1)
  /\ log_records (snd (hello (GET "/" {["HTTP_X_REQUEST_ID" := "abc123"]})
                             (calm 0 1) initial_world))
     = [Json.dumps (log_entry "GET" "/" "abc123")]
  /\ field "request_id" (log_entry "GET" "/" "abc123") = Some "abc123"
  /\ log_records (snd (hello (GET "/" ∅) (calm 0 1) initial_world))
     = [Json.dumps (log_entry "GET" "/" "N/A")].
Proof.
  assert (H : no_raise (calm 0 1)) by (intros s; reflexivity).
  split; [exact H|].
  split; [exact (proj1 (hello_logs_request_id
                          (GET "/" {["HTTP_X_REQUEST_ID" := "abc123"]})
                          (calm 0 1) initial_world H))|].
  split; [reflexivity|].
  exact (proj1 (hello_logs_request_id (GET "/" ∅) (calm 0 1) initial_world H)).
Defined.

(** ** The application *)

Section ApplicationFacts.

Variable floatToGoString : Q -> string.

Lemma wsgi_app_hello request env w :
  method request = "GET" -> path request = "/" ->
  wsgi_app floatToGoString request env w
  = (match fst (hello request env w) with
     | Returned s => {| status := 200; mimetype := "text/html"; data := s |}
     | Raised _ => error_response 500
     end, snd (hello request env w)).
Proof.
  intros Hm Hp. unfold wsgi_app, url_map. rewrite Hm, Hp. cbn [String.eqb Ascii.eqb Bool.eqb orb].
  change (String.eqb "/" "/") with true. change (String.eqb "GET" "GET") with true.
  change (String.eqb "GET" "HEAD") with false. cbv iota beta.
  unfold mbind, M_bind, mret, M_ret.
  by destruct (hello request env w) as [[s|e] w'].
Qed.

Lemma wsgi_app_metrics request env w :
  method request = "GET" -> path request = "/metrics" ->
  wsgi_app floatToGoString request env w
  = (Response_ (Exposition.generate_latest floatToGoString (scrape env) (registry w))
               "text/plain", w).
Proof.
  intros Hm Hp. unfold wsgi_app, url_map. rewrite Hm, Hp.
  change (String.eqb "/metrics" "/") with false.
  change (String.eqb "/metrics" "/metrics") with true.
  change (String.eqb "GET" "GET") with true. reflexivity.
Qed.

(** No request makes the counter of a series go down. *)
Lemma wsgi_app_counter_mono request env w l :
  (counter_value (registry w) l
   <= counter_value (registry (snd (wsgi_app floatToGoString request env w))) l)%N.
Proof.
  assert (Hh : (counter_value (registry w) l
                <= counter_value (registry (snd (hello request env w))) l)%N).
  { destruct (decide ((method request, "/") = l)) as [<-|Hne].
    - rewrite hello_counter. lia.
    - rewrite hello_counter_ne by done. lia. }
  unfold wsgi_app, url_map.
  destruct (String.eqb (path request) "/").
  - destruct (String.eqb (method request) "GET" || String.eqb (method request) "HEAD").
    + unfold mbind, M_bind, mret, M_ret.
      destruct (hello request env w) as [[s|e] w'] eqn:E; cbn [snd] in *; exact Hh.
    + destruct (String.eqb (method request) "OPTIONS"); cbn [snd]; lia.
  - destruct (String.eqb (path request) "/metrics"); [|cbn [snd]; lia].
    destruct (String.eqb (method request) "GET" || String.eqb (method request) "HEAD").
    + unfold mbind, M_bind, mret, M_ret, metrics. cbn [snd]. lia.
    + destruct (String.eqb (method request) "OPTIONS"); cbn [snd]; lia.
Qed.

Lemma serve_counter_mono jobs w l :
  (counter_value (registry w) l
   <= counter_value (registry (snd (serve floatToGoString jobs w))) l)%N.
Proof.
  revert w. induction jobs as [|[request env] jobs IH]; intros w; cbn [serve].
  - cbn [snd]. lia.
  - pose proof (wsgi_app_counter_mono request env w l) as H1.
    destruct (wsgi_app floatToGoString request env w) as [r w1]. cbn [snd] in H1.
    specialize (IH w1). destruct (serve floatToGoString jobs w1) as [rs w2].
    cbn [snd] in *. lia.
Qed.

(** Once a GET request for [/] has been served, the counter of the series
    (GET, /) is at least one. *)
Lemma serve_counter_positive jobs w :
  Exists (fun job => method (fst job) = "GET" /\ path (fst job) = "/") jobs ->
  (1 <= counter_value (registry (snd (serve floatToGoString jobs w))) GET_root)%N.
Proof.
  intros Hex. revert w.
  induction Hex as [[request env] jobs [Hm Hp]|[request env] jobs _ IH];
    intros w; cbn [serve].
  - cbn [fst] in Hm, Hp. rewrite (wsgi_app_hello request env w Hm Hp).
    pose proof (serve_counter_mono jobs (snd (hello request env w)) GET_root) as H1.
    destruct (serve floatToGoString jobs (snd (hello request env w))) as [rs w2].
    cbn [snd] in *. unfold GET_root in *.
    pose proof (hello_counter request env w) as H2. rewrite Hm in H2. lia.
  - destruct (wsgi_app floatToGoString request env w) as [r w1].
    specialize (IH w1). by destruct (serve floatToGoString jobs w1) as [rs w2].
Qed.

End ApplicationFacts.

Lemma first_raise_calm env : no_raise env -> first_raise env = None.
Proof. intros H. unfold first_raise, program_order. cbn [foldr]. by rewrite !H. Qed.

(** The claim of C4 fails on the content type: [hello] returns a [str], which
    Flask turns into a response with its default mimetype, text/html; only
    [metrics] names text/plain. *)
Lemma hello_response_is_not_text_plain :
  let response := fst (wsgi_app (fun _ => "") (GET "/" ∅) (calm 0 1) initial_world) in
  status response = 200
  /\ data response = message
  /\ mimetype response = "text/html"
  /\ mimetype response <> "text/plain"
  /\ content_type response <> "text/plain; charset=utf-8".
Proof. vm_compute. repeat split; discriminate. Qed.

(** C4, amended. A GET request for [/] during which no call of the [try]
    block raises is answered with status 200 and the fixed greeting as its
    body; the content type is text/html with charset utf-8. *)
Theorem hello_response (floatToGoString : Q -> string)
    (request : Request) (env : Env) (w : World) :
  method request = "GET" -> path request = "/" -> no_raise env ->
  let response := fst (wsgi_app floatToGoString request env w) in
  status response = 200
  /\ data response = "Hello from Flask on GKE! (Version 1.1 with Tracing)"
  /\ mimetype response = "text/html"
  /\ content_type response = "text/html; charset=utf-8".
Proof.
  intros Hm Hp Hcalm response. subst response.
  rewrite (wsgi_app_hello floatToGoString request env w Hm Hp).
  rewrite hello_outcome, (first_raise_calm env Hcalm). cbn [fst]. done.
Qed.

Lemma hello_response_witness :
  method (GET "/" ∅) = "GET" /\ path (GET "/" ∅) = "/" /\ no_raise (calm 0 1)
  /\ status (fst (wsgi_app (fun _ => "") (GET "/" ∅) (calm 0 1) initial_world)) = 200.
Proof.
  assert (H : no_raise (calm 0 1)) by (intros s; reflexivity).
  split; [reflexivity|]. split; [reflexivity|]. split; [exact H|].
  exact (proj1 (hello_response (fun _ => "") (GET "/" ∅) (calm 0 1) initial_world
                  eq_refl eq_refl H)).
Defined.

(** * Further properties of the views *)

(** ** What reaches [hello] *)

Lemma hello_histogram_ne request env w l :
  (method request, "/") <> l ->
  histogram_child (registry (snd (hello request env w))) l = histogram_child (registry w) l.
Proof.
  intros Hne. rewrite hello_registry. by rewrite histogram_child_observe_ne.
Qed.

Lemma wsgi_app_world floatToGoString request env w :
  snd (wsgi_app floatToGoString request env w)
  = if runs_hello request then snd (hello request env w) else w.
Proof.
  unfold wsgi_app, url_map, runs_hello.
  destruct (String.eqb (path request) "/") eqn:Hp; cbn [andb].
  - destruct (String.eqb (method request) "GET" || String.eqb (method request) "HEAD").
    + unfold mbind, M_bind, mret, M_ret.
      by destruct (hello request env w) as [[s|e] w'].
    + by destruct (String.eqb (method request) "OPTIONS").
  - destruct (String.eqb (path request) "/metrics"); [|done].
    destruct (String.eqb (method request) "GET" || String.eqb (method request) "HEAD").
    + reflexivity.
    + by destruct (String.eqb (method request) "OPTIONS").
Qed.

Lemma serve_world floatToGoString jobs w :
  snd (serve floatToGoString jobs w)
  = hello_all (List.filter (fun job => runs_hello (fst job)) jobs) w.
Proof.
  revert w. induction jobs as [|[request env] jobs IH]; intros w; [done|].
  cbn [serve List.filter fst].
  pose proof (wsgi_app_world floatToGoString request env w) as Hw.
  destruct (wsgi_app floatToGoString request env w) as [r w1]. cbn [snd] in Hw.
  specialize (IH w1). destruct (serve floatToGoString jobs w1) as [rs w2].
  cbn [snd] in *. rewrite IH, Hw.
  by destruct (runs_hello request).
Qed.

Lemma runs_hello_known request :
  runs_hello request = true -> (method request, "/") ∈ known_series.
Proof.
  unfold runs_hello, known_series. intros H.
  apply andb_true_iff in H as [_ H]. apply orb_true_iff in H as [H|H];
    apply String.eqb_eq in H; rewrite H; set_solver.
Qed.

(** X1. An invocation of [hello] changes the metrics of one series only, the
    one of its own method and [/]: the counter, the gauge and the histogram
    of every other series are what they were. *)
Theorem hello_touches_one_series (request : Request) (env : Env) (w : World)
    (l : LabelValues) :
  (method request, "/") <> l ->
  counter_value (registry (snd (hello request env w))) l = counter_value (registry w) l
  /\ gauge_value (registry (snd (hello request env w))) l = gauge_value (registry w) l
  /\ histogram_child (registry (snd (hello request env w))) l
     = histogram_child (registry w) l.
Proof.
  intros Hne. split; [by apply hello_counter_ne|].
  split; [apply hello_gauge|by apply hello_histogram_ne].
Qed.

Lemma hello_touches_one_series_witness :
  (method (GET "/" ∅), "/") <> ("HEAD", "/")
  /\ counter_value (registry (snd (hello (GET "/" ∅) (calm 0 1) initial_world)))
                   ("HEAD", "/")
     = counter_value (registry initial_world) ("HEAD", "/").
Proof.
  assert (H : (method (GET "/" ∅), "/") <> ("HEAD", "/")) by discriminate.
  split; [exact H|].
  exact (proj1 (hello_touches_one_series (GET "/" ∅) (calm 0 1) initial_world
                  ("HEAD", "/") H)).
Defined.

(** X2. Requests that do not reach [hello] change no metric.  One request
    changes the three metrics as [hello] does when it asks for [/] with GET
    or HEAD, and not at all otherwise: a scrape of [/metrics], an unknown
    path or another method leaves every counter, histogram and gauge as it
    was.  So the metrics after a run of requests are the metrics after the
    invocations of [hello] for those among them that reach it, in their
    order. *)
Theorem serve_is_hello_on_root (floatToGoString : Q -> string)
    (jobs : list (Request * Env)) (w : World) (request : Request) (env : Env) :
  registry (snd (wsgi_app floatToGoString request env w))
  = (if runs_hello request then registry (snd (hello request env w)) else registry w)
  /\ registry (snd (serve floatToGoString jobs w))
     = registry (hello_all (List.filter (fun job => runs_hello (fst job)) jobs) w).
Proof.
  split; [|by rewrite serve_world].
  rewrite wsgi_app_world. by destruct (runs_hello request).
Qed.

(** ** Counting over mixed traffic *)

Lemma serve_counts floatToGoString jobs w l :
  counter_value (registry (snd (serve floatToGoString jobs w))) l
  = (counter_value (registry w) l + N.of_nat (length (List.filter (counted l) jobs)))%N
  /\ h_count (histogram_child (registry (snd (serve floatToGoString jobs w))) l)
     = (h_count (histogram_child (registry w) l)
        + N.of_nat (length (List.filter (counted l) jobs)))%N
  /\ gauge_value (registry (snd (serve floatToGoString jobs w))) l
     = gauge_value (registry w) l.
Proof.
  revert w. induction jobs as [|[request env] jobs IH]; intros w.
  - cbn. repeat split; lia.
  - cbn [serve List.filter].
    pose proof (wsgi_app_world floatToGoString request env w) as Hw.
    destruct (wsgi_app floatToGoString request env w) as [r w1]. cbn [snd] in Hw.
    destruct (IH w1) as (Hc & Hh & Hg).
    destruct (serve floatToGoString jobs w1) as [rs w2]. cbn [snd] in *.
    rewrite Hc, Hh, Hg, Hw.
    assert (Hcnt : counted l (request, env)
                   = runs_hello request && bool_decide ((method request, "/") = l))
      by reflexivity.
    rewrite Hcnt. clear Hcnt.
    destruct (runs_hello request); cbn [andb]; [|repeat split; lia].
    destruct (decide ((method request, "/") = l)) as [<-|Hne].
    + rewrite bool_decide_eq_true_2 by done. cbn [length].
      rewrite hello_counter, hello_histogram, h_count_observe, hello_gauge.
      repeat split; lia.
    + rewrite bool_decide_eq_false_2 by done.
      rewrite hello_counter_ne, hello_histogram_ne, hello_gauge by done.
      repeat split; lia.
Qed.

(** X3. Over any run of requests, the request counter of a series grows by
    exactly the number of requests that reached [hello] with the method of
    that series, and so does the number of observations of its latency
    histogram.  Scrapes, unknown paths and refused methods are not counted;
    requests during which a call of the [try] block of [hello] raised are. *)
Theorem serve_counts_handled_requests (floatToGoString : Q -> string)
    (jobs : list (Request * Env)) (w : World) (l : LabelValues) :
  counter_value (registry (snd (serve floatToGoString jobs w))) l
  = (counter_value (registry w) l + N.of_nat (length (List.filter (counted l) jobs)))%N
  /\ h_count (histogram_child (registry (snd (serve floatToGoString jobs w))) l)
     = (h_count (histogram_child (registry w) l)
        + N.of_nat (length (List.filter (counted l) jobs)))%N.
Proof.
  destruct (serve_counts floatToGoString jobs w l) as (Hc & Hh & _). by split.
Qed.

(** X4. After any run of requests, whatever their paths and methods, and
    whether the [try] block of [hello] ran to its end or one of its calls
    raised, the in-flight gauge of every series is back at the value it had
    before the run. *)
Theorem serve_restores_every_gauge (floatToGoString : Q -> string)
    (jobs : list (Request * Env)) (w : World) (l : LabelValues) :
  gauge_value (registry (snd (serve floatToGoString jobs w))) l
  = gauge_value (registry w) l.
Proof. by destruct (serve_counts floatToGoString jobs w l) as (_ & _ & Hg). Qed.

(** X5. The histogram and the counter of a series stay in step: if the number
    of observations equals the counter for every series before a run of
    requests, it does so after it. *)
Theorem serve_keeps_count_in_step (floatToGoString : Q -> string)
    (jobs : list (Request * Env)) (w : World) :
  (forall l, h_count (histogram_child (registry w) l) = counter_value (registry w) l) ->
  forall l,
    h_count (histogram_child (registry (snd (serve floatToGoString jobs w))) l)
    = counter_value (registry (snd (serve floatToGoString jobs w))) l.
Proof.
  intros Hw l. destruct (serve_counts floatToGoString jobs w l) as (Hc & Hh & _).
  rewrite Hc, Hh, Hw. reflexivity.
Qed.

Lemma initial_count_in_step l :
  h_count (histogram_child (registry initial_world) l)
  = counter_value (registry initial_world) l.
Proof.
  unfold histogram_child, counter_value. cbn [registry initial_world empty_registry
    REQUEST_LATENCY REQUEST_COUNT]. rewrite !lookup_empty. reflexivity.
Qed.

Lemma serve_keeps_count_in_step_witness :
  (forall l, h_count (histogram_child (registry initial_world) l)
             = counter_value (registry initial_world) l)
  /\ h_count (histogram_child
       (registry (snd (serve (fun _ => "") [(GET "/" ∅, calm 0 1); (GET "/x" ∅, calm 0 1)]
                             initial_world))) GET_root)
     = counter_value
         (registry (snd (serve (fun _ => "") [(GET "/" ∅, calm 0 1); (GET "/x" ∅, calm 0 1)]
                               initial_world))) GET_root.
Proof.
  split; [exact initial_count_in_step|].
  exact (serve_keeps_count_in_step (fun _ => "")
           [(GET "/" ∅, calm 0 1); (GET "/x" ∅, calm 0 1)] initial_world
           initial_count_in_step GET_root).
Defined.

(** X6. A GET request for [/] during which a call of the [try] block of
    [hello] raises is answered with status 500, and it is recorded all the
    same: the counter and the histogram of (GET, /) have one more, and the
    gauge is back where it was. *)
Theorem failed_request_is_recorded (floatToGoString : Q -> string)
    (request : Request) (env : Env) (w : World) (e : Exn) :
  method request = "GET" -> path request = "/" -> first_raise env = Some e ->
  status (fst (wsgi_app floatToGoString request env w)) = 500
  /\ counter_value (registry (snd (wsgi_app floatToGoString request env w))) GET_root
     = N.succ (counter_value (registry w) GET_root)
  /\ h_count (histogram_child (registry (snd (wsgi_app floatToGoString request env w)))
                              GET_root)
     = N.succ (h_count (histogram_child (registry w) GET_root))
  /\ gauge_value (registry (snd (wsgi_app floatToGoString request env w))) GET_root
     = gauge_value (registry w) GET_root.
Proof.
  intros Hm Hp He. rewrite (wsgi_app_hello floatToGoString request env w Hm Hp).
  cbn [fst snd]. rewrite hello_outcome, He. split; [reflexivity|].
  unfold GET_root. rewrite <- Hm.
  rewrite hello_counter, hello_histogram, h_count_observe, hello_gauge. done.
Qed.

Lemma failed_request_is_recorded_witness :
  method (GET "/" ∅) = "GET" /\ path (GET "/" ∅) = "/"
  /\ first_raise env_dumps_raises = Some "TypeError"
  /\ status (fst (wsgi_app (fun _ => "") (GET "/" ∅) env_dumps_raises initial_world)) = 500.
Proof.
  split; [reflexivity|]. split; [reflexivity|]. split; [reflexivity|].
  exact (proj1 (failed_request_is_recorded (fun _ => "") (GET "/" ∅) env_dumps_raises
                  initial_world "TypeError" eq_refl eq_refl eq_refl)).
Defined.

(** ** The set of series *)

Lemma hello_series_bounded request env w :
  runs_hello request = true ->
  series_bounded (registry w) ->
  series_bounded (registry (snd (hello request env w))).
Proof.
  intros Hruns (Hsub & Hl & Hg). apply runs_hello_known in Hruns.
  rewrite hello_registry. unfold series_bounded.
  cbn [histogram_observe counter_inc gauge_dec gauge_inc
       REQUEST_COUNT REQUEST_LATENCY IN_PROGRESS_REQUESTS].
  rewrite !dom_insert_L, Hl, Hg. clear Hl Hg.
  split; [|split; [reflexivity|by rewrite (assoc_L (∪)), union_idemp_L]]. apply union_subseteq. split; [|exact Hsub].
  by apply singleton_subseteq_l.
Qed.

Lemma known_series_size : size known_series = 2.
Proof.
  unfold known_series. rewrite size_union by set_solver.
  by rewrite !size_singleton.
Qed.

(** X7. The set of series stays bounded: if the three metrics hold the same
    series and only series for GET or HEAD on [/], they do so after any run
    of requests; no metric ever holds more than two series, whatever paths
    and methods the requests name. *)
Theorem serve_keeps_series_bounded (floatToGoString : Q -> string)
    (jobs : list (Request * Env)) (w : World) :
  series_bounded (registry w) ->
  series_bounded (registry (snd (serve floatToGoString jobs w)))
  /\ size (REQUEST_COUNT (registry (snd (serve floatToGoString jobs w)))) <= 2
  /\ size (REQUEST_LATENCY (registry (snd (serve floatToGoString jobs w)))) <= 2
  /\ size (IN_PROGRESS_REQUESTS (registry (snd (serve floatToGoString jobs w)))) <= 2.
Proof.
  intros Hw.
  assert (Hb : series_bounded (registry (snd (serve floatToGoString jobs w)))).
  { revert w Hw. induction jobs as [|[request env] jobs IH]; intros w Hw; [done|].
    cbn [serve].
    pose proof (wsgi_app_world floatToGoString request env w) as Hw1.
    destruct (wsgi_app floatToGoString request env w) as [r w1]. cbn [snd] in Hw1.
    specialize (IH w1). destruct (serve floatToGoString jobs w1) as [rs w2].
    cbn [snd] in *. apply IH. rewrite Hw1.
    destruct (runs_hello request) eqn:Hr; [by apply hello_series_bounded|done]. }
  split; [exact Hb|]. destruct Hb as (Hsub & Hl & Hg).
  assert (size (dom (REQUEST_COUNT (registry (snd (serve floatToGoString jobs w))))) <= 2).
  { rewrite <- known_series_size. by apply subseteq_size. }
  rewrite <- !size_dom, Hl, Hg. lia.
Qed.

Lemma serve_keeps_series_bounded_witness :
  series_bounded (registry initial_world)
  /\ size (REQUEST_COUNT (registry (snd (serve (fun _ => "")
             [(GET "/" ∅, calm 0 1); (GET "/metrics" ∅, calm 0 1)] initial_world)))) <= 2.
Proof.
  assert (H : series_bounded (registry initial_world)).
  { unfold series_bounded. cbn [registry initial_world empty_registry
      REQUEST_COUNT REQUEST_LATENCY IN_PROGRESS_REQUESTS].
    rewrite !dom_empty_L. split; [set_solver|done]. }
  split; [exact H|].
  exact (proj1 (proj2 (serve_keeps_series_bounded (fun _ => "")
           [(GET "/" ∅, calm 0 1); (GET "/metrics" ∅, calm 0 1)] initial_world H))).
Defined.

(** ** Log and span, case by case *)

(** X9. An invocation of [hello] logs its line exactly when no call of the
    [try] block raises; when one does, the invocation logs nothing.  In
    particular it never logs twice. *)
Theorem hello_logs_unless_raised (request : Request) (env : Env) (w : World) :
  log_records (snd (hello request env w))
  = log_records w ++ match first_raise env with
                     | None => [log_line request]
                     | Some _ => []
                     end.
Proof.
  run_hello. by_site env; cbn [log_records]; rewrite ?app_nil_r; reflexivity.
Qed.

Lemma hello_tracer_calm request env w :
  no_raise env ->
  tracer (snd (hello request env w))
  = Trace.end_span (Trace.next_id (tracer w))
      (Trace.detach
         (Trace.set_attribute (Trace.next_id (tracer w)) "http.path" "/"
            (Trace.set_attribute (Trace.next_id (tracer w)) "http.method" (method request)
               (snd (Trace.start_span "hello-endpoint-processing" (tracer w)))))).
Proof. intros Hcalm. run_hello. rewrite !Hcalm. reflexivity. Qed.

(** The tracer after a span has been started, given its two attributes and
    left. *)
Lemma traced_request name k1 v1 k2 v2 t :
  Trace.end_span (Trace.next_id t)
    (Trace.detach
       (Trace.set_attribute (Trace.next_id t) k2 v2
          (Trace.set_attribute (Trace.next_id t) k1 v1
             (snd (Trace.start_span name t)))))
  = {| Trace.spans :=
         <[Trace.next_id t := {| Trace.sp_name := name;
                                 Trace.sp_attributes := <[k2 := v2]> (<[k1 := v1]> ∅);
                                 Trace.sp_ended := true |}]> (Trace.spans t);
       Trace.next_id := S (Trace.next_id t);
       Trace.current := Trace.current t;
       Trace.queue := Trace.queue t
                      ++ [{| Trace.sp_name := name;
                             Trace.sp_attributes := <[k2 := v2]> (<[k1 := v1]> ∅);
                             Trace.sp_ended := true |}] |}.
Proof.
  cbn [Trace.start_span snd].
  unfold Trace.set_attribute at 2. cbn [Trace.spans]. rewrite lookup_insert_eq.
  cbn [Trace.sp_ended Trace.sp_name Trace.sp_attributes Trace.next_id Trace.current
       Trace.queue].
  unfold Trace.set_attribute. cbn [Trace.spans]. rewrite lookup_insert_eq.
  cbn [Trace.sp_ended Trace.sp_name Trace.sp_attributes Trace.next_id Trace.current
       Trace.queue].
  unfold Trace.detach, Trace.end_span. cbn [Trace.spans]. rewrite lookup_insert_eq.
  cbn [Trace.sp_ended Trace.sp_name Trace.sp_attributes Trace.next_id Trace.current
       Trace.queue tail].
  by rewrite !insert_insert_eq.
Qed.

(** X10. When no call of the [try] block raises, the span that an invocation
    hands to the span processor has the name hello-endpoint-processing and
    exactly two attributes, http.method with the method of the request and
    http.path with [/]; the next span will get the next identifier. *)
Theorem hello_span_attributes (request : Request) (env : Env) (w : World) :
  no_raise env ->
  Trace.queue (tracer (snd (hello request env w)))
  = Trace.queue (tracer w) ++ [request_span request]
  /\ Trace.spans (tracer (snd (hello request env w))) !! Trace.next_id (tracer w)
     = Some (request_span request)
  /\ Trace.sp_attributes (request_span request) !! "http.method" = Some (method request)
  /\ Trace.sp_attributes (request_span request) !! "http.path" = Some "/"
  /\ size (Trace.sp_attributes (request_span request)) = 2
  /\ Trace.next_id (tracer (snd (hello request env w))) = S (Trace.next_id (tracer w)).
Proof.
  intros Hcalm. rewrite (hello_tracer_calm request env w Hcalm), traced_request.
  cbn [Trace.queue Trace.spans Trace.next_id]. rewrite lookup_insert_eq.
  split; [reflexivity|]. split; [reflexivity|].
  unfold request_span. cbn [Trace.sp_attributes].
  split; [by rewrite lookup_insert_ne, lookup_insert_eq|].
  split; [by rewrite lookup_insert_eq|]. split; [|reflexivity].
  rewrite !map_size_insert_None; [by rewrite map_size_empty|done|].
  by rewrite lookup_insert_ne.
Qed.

Lemma hello_span_attributes_witness :
  no_raise (calm 0 1)
  /\ Trace.queue (tracer (snd (hello (GET "/" ∅) (calm 0 1) initial_world)))
     = Trace.queue (tracer initial_world) ++ [request_span (GET "/" ∅)].
Proof.
  assert (H : no_raise (calm 0 1)) by (intros s; reflexivity).
  split; [exact H|].
  exact (proj1 (hello_span_attributes (GET "/" ∅) (calm 0 1) initial_world H)).
Defined.

(** X11. When [start_as_current_span] itself raises, no span exists for the
    invocation: the tracer is untouched and nothing is logged; the caller
    gets the exception, and the request is counted nevertheless. *)
Theorem hello_without_span (request : Request) (env : Env) (w : World) (e : Exn) :
  raises env AtStartSpan = Some e ->
  fst (hello request env w) = Raised e
  /\ tracer (snd (hello request env w)) = tracer w
  /\ log_records (snd (hello request env w)) = log_records w
  /\ counter_value (registry (snd (hello request env w))) (method request, "/")
     = N.succ (counter_value (registry w) (method request, "/")).
Proof.
  intros Hstart. split; [|split; [|split]].
  - run_hello. by rewrite Hstart.
  - run_hello. by rewrite Hstart.
  - run_hello. by rewrite Hstart.
  - apply hello_counter.
Qed.

Lemma hello_without_span_witness :
  raises env_start_span_raises AtStartSpan = Some "RuntimeError"
  /\ fst (hello (GET "/" ∅) env_start_span_raises initial_world) = Raised "RuntimeError".
Proof.
  split; [reflexivity|].
  exact (proj1 (hello_without_span (GET "/" ∅) env_start_span_raises initial_world
                  "RuntimeError" eq_refl)).
Defined.

(** ** Runs in which nothing raises *)

Lemma hello_calm_step request env w :
  no_raise env ->
  log_records (snd (hello request env w)) = log_records w ++ [log_line request]
  /\ Trace.queue (tracer (snd (hello request env w)))
     = Trace.queue (tracer w) ++ [request_span request]
  /\ Trace.next_id (tracer (snd (hello request env w))) = S (Trace.next_id (tracer w))
  /\ Trace.current (tracer (snd (hello request env w))) = Trace.current (tracer w).
Proof.
  intros Hcalm. split; [apply (hello_log request env w Hcalm)|].
  rewrite (hello_tracer_calm request env w Hcalm), traced_request. done.
Qed.

(** X12. Invocations in which nothing raises, run one after the other, leave
    one log line and one queued span each, in the order of the requests: the
    log grows by the lines of the requests, the queue of the span processor
    by their spans, and the span identifiers handed out are consecutive. *)
Theorem hello_all_logs_and_spans (jobs : list (Request * Env)) (w : World) :
  Forall (fun job => no_raise (snd job)) jobs ->
  log_records (hello_all jobs w)
  = log_records w ++ map (fun job => log_line (fst job)) jobs
  /\ Trace.queue (tracer (hello_all jobs w))
     = Trace.queue (tracer w) ++ map (fun job => request_span (fst job)) jobs
  /\ Trace.next_id (tracer (hello_all jobs w)) = Trace.next_id (tracer w) + length jobs
  /\ Trace.current (tracer (hello_all jobs w)) = Trace.current (tracer w).
Proof.
  intros Hcalm. revert w.
  induction Hcalm as [|[request env] jobs Hc _ IH]; intros w.
  - cbn [hello_all map length]. rewrite !app_nil_r. repeat split; lia.
  - cbn [hello_all map length fst]. cbn [snd] in Hc.
    destruct (IH (snd (hello request env w))) as (Hl & Hq & Hn & Hcur).
    destruct (hello_calm_step request env w Hc) as (Hl1 & Hq1 & Hn1 & Hcur1).
    rewrite Hl, Hq, Hn, Hcur, Hl1, Hq1, Hn1, Hcur1, <- !app_assoc.
    repeat split; lia.
Qed.

Lemma hello_all_logs_and_spans_witness :
  Forall (fun job => no_raise (snd job)) [(GET "/" ∅, calm 0 1); (GET "/" ∅, calm 1 2)]
  /\ log_records (hello_all [(GET "/" ∅, calm 0 1); (GET "/" ∅, calm 1 2)] initial_world)
     = log_records initial_world
       ++ map (fun job => log_line (fst job)) [(GET "/" ∅, calm 0 1); (GET "/" ∅, calm 1 2)].
Proof.
  assert (H : Forall (fun job : Request * Env => no_raise (snd job))
                [(GET "/" ∅, calm 0 1); (GET "/" ∅, calm 1 2)])
    by (repeat constructor; intros s; reflexivity).
  split; [exact H|].
  exact (proj1 (hello_all_logs_and_spans _ initial_world H)).
Defined.

(** ** What a log line tells *)

Lemma dumps_inj d1 d2 : Json.dumps d1 = Json.dumps d2 -> d1 = d2.
Proof.
  intros H. apply (f_equal Json.loads) in H. rewrite !loads_dumps in H. congruence.
Qed.

(** X13. The log line identifies what it was written for: two requests that
    produce the same line have the same method and the same request id
    (header value, or the default when there is no header).  No escaping of
    [json.dumps] makes two different values collide. *)
Theorem log_line_determines_request (request1 request2 : Request) :
  log_line request1 = log_line request2 ->
  method request1 = method request2
  /\ headers_get request1 "X-Request-ID" "N/A" = headers_get request2 "X-Request-ID" "N/A".
Proof.
  unfold log_line. intros H. apply dumps_inj in H. unfold log_entry in H.
  by simplify_eq.
Qed.

Lemma log_line_determines_request_witness :
  log_line (GET "/" {["HTTP_X_REQUEST_ID" := "abc123"]})
  = log_line (GET "/" {["HTTP_X_REQUEST_ID" := "abc123"; "HTTP_HOST" := "localhost"]})
  /\ headers_get (GET "/" {["HTTP_X_REQUEST_ID" := "abc123"]}) "X-Request-ID" "N/A"
     = headers_get (GET "/" {["HTTP_X_REQUEST_ID" := "abc123"; "HTTP_HOST" := "localhost"]})
                   "X-Request-ID" "N/A".
Proof.
  assert (H : log_line (GET "/" {["HTTP_X_REQUEST_ID" := "abc123"]})
              = log_line (GET "/" {["HTTP_X_REQUEST_ID" := "abc123";
                                    "HTTP_HOST" := "localhost"]}))
    by (vm_compute; reflexivity).
  split; [exact H|].
  exact (proj2 (log_line_determines_request _ _ H)).
Defined.

(** ** What a scrape shows *)

Lemma hello_counter_dom request env w :
  dom (REQUEST_COUNT (registry (snd (hello request env w))))
  = {[ (method request, "/") ]} ∪ dom (REQUEST_COUNT (registry w)).
Proof.
  rewrite hello_registry.
  cbn [histogram_observe counter_inc REQUEST_COUNT]. by rewrite dom_insert_L.
Qed.

Lemma serve_series_present floatToGoString jobs w l :
  l ∈ dom (REQUEST_COUNT (registry w)) \/ 0 < length (List.filter (counted l) jobs) ->
  l ∈ dom (REQUEST_COUNT (registry (snd (serve floatToGoString jobs w)))).
Proof.
  revert w. induction jobs as [|[request env] jobs IH]; intros w Hl.
  - destruct Hl as [Hl|Hl]; [exact Hl|cbn in Hl; lia].
  - cbn [serve].
    pose proof (wsgi_app_world floatToGoString request env w) as Hw.
    destruct (wsgi_app floatToGoString request env w) as [r w1]. cbn [snd] in Hw.
    specialize (IH w1). destruct (serve floatToGoString jobs w1) as [rs w2].
    cbn [snd] in *. apply IH. rewrite Hw. clear IH Hw.
    cbn [List.filter] in Hl.
    assert (Hcnt : counted l (request, env)
                   = runs_hello request && bool_decide ((method request, "/") = l))
      by reflexivity.
    rewrite Hcnt in Hl. clear Hcnt.
    destruct (runs_hello request); cbn [andb] in Hl; [|exact Hl].
    rewrite hello_counter_dom.
    destruct (decide ((method request, "/") = l)) as [<-|Hne].
    + left. apply elem_of_union_l. by apply elem_of_singleton.
    + rewrite bool_decide_eq_false_2 in Hl by done.
      destruct Hl as [Hl|Hl]; [left; by apply elem_of_union_r|by right].
Qed.




(** *** The lines of the exposition *)




Lemma arrange_In {V : Type} (order : list LabelValues) (m : gmap LabelValues V) l v :
  m !! l = Some v -> In (l, v) (Exposition.arrange order m).
Proof.
  intros Hl. unfold Exposition.arrange. apply in_or_app.
  destruct (decide (l ∈ order)) as [Hin|Hout].
  - left. apply list_elem_of_In, list_elem_of_omap. exists l.
    split; [by apply elem_of_remove_dups|by rewrite Hl].
  - right. apply list_elem_of_In, elem_of_map_to_list, map_lookup_filter_Some. done.
Qed.

(** Every sample of a family has its line among the lines that follow the
    comment lines of the family. *)
Lemma sample_block_In floatToGoString m s :
  In s (Exposition.m_samples m) ->
  In (Exposition.sample_line floatToGoString s) (Exposition.sample_block floatToGoString m).
Proof.
  intros Hs. unfold Exposition.sample_block. apply in_or_app.
  destruct (Exposition.is_created m s) eqn:Hc.
  - right.
    assert (Hin : In s (List.filter (Exposition.is_created m) (Exposition.m_samples m)))
      by (apply filter_In; by split).
    destruct (List.filter (Exposition.is_created m) (Exposition.m_samples m)) as [|s0 ss];
      [destruct Hin|].
    right. right. by apply in_map.
  - left. apply in_map, filter_In. split; [exact Hs|by rewrite Hc].
Qed.

Lemma app_lines_layout floatToGoString sc r :
  Exposition.app_lines floatToGoString sc r
  = ("# HELP http_requests_total Total HTTP Requests" +:+ String "010"%char "")
    :: ("# TYPE http_requests_total counter" +:+ String "010"%char "")
    :: Exposition.sample_block floatToGoString
         (Exposition.mkMetric "http_requests" "Total HTTP Requests" "counter"
            (Exposition.counter_samples sc r))
    ++ ("# HELP http_request_duration_seconds HTTP Request Latency" +:+ String "010"%char "")
    :: ("# TYPE http_request_duration_seconds histogram" +:+ String "010"%char "")
    :: Exposition.sample_block floatToGoString
         (Exposition.mkMetric "http_request_duration_seconds" "HTTP Request Latency"
            "histogram" (Exposition.histogram_samples floatToGoString sc r))
    ++ ("# HELP http_requests_in_progress Number of in-progress HTTP requests"
          +:+ String "010"%char "")
    :: ("# TYPE http_requests_in_progress gauge" +:+ String "010"%char "")
    :: Exposition.sample_block floatToGoString
         (Exposition.mkMetric "http_requests_in_progress"
            "Number of in-progress HTTP requests" "gauge"
            (Exposition.gauge_samples sc r)).
Proof.
  unfold Exposition.app_lines, Exposition.collect.
  cbn [map concat]. rewrite app_nil_r. reflexivity.
Qed.






Section SeriesLines.

Variable floatToGoString : Q -> string.
Variables (sc : Scrape) (r : Registry).

Lemma counter_series_lines l v :
  REQUEST_COUNT r !! l = Some v ->
  In (Exposition.mkSample "http_requests_total" (Exposition.series_labels l)
                          (Exposition.of_N v))
     (Exposition.counter_samples sc r)
  /\ In (Exposition.mkSample "http_requests_created" (Exposition.series_labels l)
                             (created sc "http_requests" l))
        (Exposition.counter_samples sc r).
Proof.
  intros Hl. unfold Exposition.counter_samples.
  pose proof (arrange_In (creation_order sc "http_requests") _ l v Hl) as Hin.
  split; apply in_concat; eexists; (split; [apply in_map_iff; exists (l, v); split;
    [reflexivity|exact Hin]|]); cbn [fst snd In]; auto.
Qed.



End SeriesLines.






Lemma counter_line_In floatToGoString sc r l v :
  REQUEST_COUNT r !! l = Some v ->
  In (Exposition.sample_line floatToGoString
        (Exposition.mkSample "http_requests_total" (Exposition.series_labels l)
                             (Exposition.of_N v)))
     (Exposition.exposition_lines floatToGoString sc r).
Proof.
  intros Hl. unfold Exposition.exposition_lines. apply in_or_app. right.
  rewrite app_lines_layout. right. right. apply in_or_app. left.
  apply sample_block_In. by apply counter_series_lines.
Qed.

(** A series under which a request of a run is recorded is one of the two
    under which [hello] can be reached. *)
Lemma counted_known (jobs : list (Request * Env)) l :
  0 < length (List.filter (counted l) jobs) -> l = ("GET", "/") \/ l = ("HEAD", "/").
Proof.
  induction jobs as [|[request env] jobs IH]; cbn [List.filter]; [cbn; lia|].
  destruct (counted l (request, env)) eqn:Hc; [intros _|exact IH].
  unfold counted in Hc. cbn [fst] in Hc. apply andb_prop in Hc as [Hr Hl].
  apply bool_decide_eq_true_1 in Hl. apply runs_hello_known in Hr.
  rewrite Hl in Hr. unfold known_series in Hr.
  apply elem_of_union in Hr as [Hr|Hr]; apply elem_of_singleton in Hr; auto.
Qed.

(** X14. A scrape shows the count: once at least one request has been
    recorded under a series, the body served for GET [/metrics] holds the
    line of that series of [http_requests_total] (endpoint, then method,
    each value between double quotes, the line ended by a line feed), and
    the value on it is the counter before the run plus the number of
    requests recorded under the series during the run. *)
Theorem scrape_shows_request_count (floatToGoString : Q -> string)
    (jobs : list (Request * Env)) (w : World) (l : LabelValues)
    (request : Request) (env : Env) :
  method request = "GET" -> path request = "/metrics" ->
  0 < length (List.filter (counted l) jobs) ->
  let q := String "034"%char "" in
  let lf := String "010"%char "" in
  exists before after,
    data (fst (wsgi_app floatToGoString request env (snd (serve floatToGoString jobs w))))
    = String.concat ""
        (before
         ++ ("http_requests_total{endpoint=" +:+ q +:+ snd l +:+ q
               +:+ ",method=" +:+ q +:+ fst l +:+ q +:+ "} "
               +:+ floatToGoString
                     (Exposition.of_N
                        (counter_value (registry w) l
                         + N.of_nat (length (List.filter (counted l) jobs))))
               +:+ lf)
         :: after).
Proof.
  intros Hm Hp Hn q lf. subst q lf.
  rewrite (wsgi_app_metrics floatToGoString request env _ Hm Hp). cbn [fst].
  pose proof (serve_series_present floatToGoString jobs w l (or_intror Hn)) as Hdom.
  apply elem_of_dom in Hdom as [v Hv].
  destruct (serve_counts floatToGoString jobs w l) as (Hc & _).
  unfold counter_value at 1 in Hc. rewrite Hv in Hc. cbn [default] in Hc.
  rewrite <- Hc.
  pose proof (counter_line_In floatToGoString (scrape env) _ l v Hv) as Hin.
  apply in_split in Hin as (before & after & Hin).
  exists before, after. unfold Response_. cbn [data].
  unfold Exposition.generate_latest. rewrite Hin. do 3 f_equal.
  destruct (counted_known jobs l Hn) as [->| ->]; reflexivity.
Qed.

Lemma scrape_shows_request_count_witness :
  method (GET "/metrics" ∅) = "GET" /\ path (GET "/metrics" ∅) = "/metrics"
  /\ 0 < length (List.filter (counted GET_root)
                   [(GET "/" ∅, calm 0 1); (GET "/" ∅, env_dumps_raises)])
  /\ exists before after,
       data (fst (wsgi_app (fun _ => "2.0") (GET "/metrics" ∅) (calm 0 0)
                    (snd (serve (fun _ => "2.0")
                            [(GET "/" ∅, calm 0 1); (GET "/" ∅, env_dumps_raises)]
                            initial_world))))
       = String.concat ""
           (before
            ++ ("http_requests_total{endpoint=" +:+ String "034"%char "" +:+ "/"
                  +:+ String "034"%char "" +:+ ",method=" +:+ String "034"%char ""
                  +:+ "GET" +:+ String "034"%char "" +:+ "} " +:+ "2.0"
                  +:+ String "010"%char "")
            :: after).
Proof.
  assert (H : 0 < length (List.filter (counted GET_root)
                            [(GET "/" ∅, calm 0 1); (GET "/" ∅, env_dumps_raises)]))
    by (vm_compute; lia).
  split; [reflexivity|]. split; [reflexivity|]. split; [exact H|].
  exact (scrape_shows_request_count (fun _ => "2.0")
           [(GET "/" ∅, calm 0 1); (GET "/" ∅, env_dumps_raises)]
           initial_world GET_root (GET "/metrics" ∅) (calm 0 0)
           eq_refl eq_refl H).
Defined.

(** ** Other spans *)

Lemma set_attribute_frame id key value t :
  (forall id', id' <> id ->
     Trace.spans (Trace.set_attribute id key value t) !! id' = Trace.spans t !! id')
  /\ Trace.queue (Trace.set_attribute id key value t) = Trace.queue t.
Proof.
  unfold Trace.set_attribute.
  destruct (Trace.spans t !! id) as [sp|]; [|done].
  destruct (Trace.sp_ended sp); [done|]. cbn [Trace.spans Trace.queue].
  split; [|done]. intros id' Hne. by rewrite lookup_insert_ne.
Qed.

Lemma end_span_frame id t :
  (forall id', id' <> id ->
     Trace.spans (Trace.end_span id (Trace.detach t)) !! id' = Trace.spans t !! id')
  /\ exists added, Trace.queue (Trace.end_span id (Trace.detach t)) = Trace.queue t ++ added.
Proof.
  unfold Trace.end_span, Trace.detach. cbn [Trace.spans].
  destruct (Trace.spans t !! id) as [sp|].
  - destruct (Trace.sp_ended sp); cbn [Trace.spans Trace.queue].
    + split; [done|]. exists []. by rewrite app_nil_r.
    + split; [|by eexists]. intros id' Hne. by rewrite lookup_insert_ne.
  - cbn [Trace.spans Trace.queue]. split; [done|]. exists []. by rewrite app_nil_r.
Qed.

Lemma start_span_frame name t :
  (forall id', id' <> Trace.next_id t ->
     Trace.spans (snd (Trace.start_span name t)) !! id' = Trace.spans t !! id')
  /\ Trace.queue (snd (Trace.start_span name t)) = Trace.queue t.
Proof.
  cbn [Trace.start_span snd Trace.spans Trace.queue]. split; [|done].
  intros id' Hne. by rewrite lookup_insert_ne.
Qed.

Lemma set_attribute_keeps (base : Trace.TracerState) id key value t :
  (forall id', id' <> id -> Trace.spans t !! id' = Trace.spans base !! id')
  /\ Trace.queue t = Trace.queue base ->
  (forall id', id' <> id ->
     Trace.spans (Trace.set_attribute id key value t) !! id' = Trace.spans base !! id')
  /\ Trace.queue (Trace.set_attribute id key value t) = Trace.queue base.
Proof.
  intros [Hsp Hq]. destruct (set_attribute_frame id key value t) as [Hs' Hq'].
  split; [|by rewrite Hq'].
  intros id' Hne. by rewrite Hs', Hsp.
Qed.

Lemma hello_tracer_frame request env w :
  (forall id', id' <> Trace.next_id (tracer w) ->
     Trace.spans (tracer (snd (hello request env w))) !! id'
     = Trace.spans (tracer w) !! id')
  /\ exists added,
       Trace.queue (tracer (snd (hello request env w))) = Trace.queue (tracer w) ++ added.
Proof.
  destruct (raises env AtStartSpan) as [e|] eqn:Hstart.
  - assert (Ht : tracer (snd (hello request env w)) = tracer w)
      by (run_hello; by rewrite Hstart).
    rewrite Ht. split; [done|]. exists []. by rewrite app_nil_r.
  - assert (Ht : exists t,
        tracer (snd (hello request env w))
        = Trace.end_span (Trace.next_id (tracer w)) (Trace.detach t)
        /\ ((forall id', id' <> Trace.next_id (tracer w) ->
               Trace.spans t !! id' = Trace.spans (tracer w) !! id')
            /\ Trace.queue t = Trace.queue (tracer w))).
    { run_hello. rewrite Hstart.
      destruct (raises env AtSetMethod) eqn:?;
      [|destruct (raises env AtSetPath) eqn:?;
      [|destruct (raises env AtHeadersGet) eqn:?;
      [|destruct (raises env AtJsonDumps) eqn:?;
      [|destruct (raises env AtLoggerInfo) eqn:?]]]];
      (eexists; split; [reflexivity|];
       repeat apply set_attribute_keeps;
       exact (start_span_frame "hello-endpoint-processing" (tracer w))). }
    destruct Ht as (t & -> & Hsp & Hq).
    destruct (end_span_frame (Trace.next_id (tracer w)) t) as [He [added Ha]].
    split.
    + intros id' Hne. by rewrite He, Hsp.
    + exists added. by rewrite Ha, Hq.
Qed.

(** X15. An invocation of [hello] leaves the spans of other requests alone:
    whatever raises, every span other than the one it creates is unchanged,
    and the queue of the span processor only grows at its end, so no span
    that was waiting for export is dropped or reordered. *)
Theorem hello_leaves_other_spans (request : Request) (env : Env) (w : World) (id : nat) :
  id <> Trace.next_id (tracer w) ->
  Trace.spans (tracer (snd (hello request env w))) !! id = Trace.spans (tracer w) !! id
  /\ exists added,
       Trace.queue (tracer (snd (hello request env w))) = Trace.queue (tracer w) ++ added.
Proof.
  intros Hne. destruct (hello_tracer_frame request env w) as [Hsp Hq].
  split; [by apply Hsp|exact Hq].
Qed.

Lemma hello_leaves_other_spans_witness :
  0 <> Trace.next_id (tracer (snd (hello (GET "/" ∅) (calm 0 1) initial_world)))
  /\ Trace.spans (tracer (snd (hello (GET "/" ∅) env_dumps_raises
                                     (snd (hello (GET "/" ∅) (calm 0 1) initial_world)))))
       !! 0
     = Trace.spans (tracer (snd (hello (GET "/" ∅) (calm 0 1) initial_world))) !! 0.
Proof.
  assert (H : 0 <> Trace.next_id (tracer (snd (hello (GET "/" ∅) (calm 0 1) initial_world))))
    by (vm_compute; discriminate).
  split; [exact H|].
  exact (proj1 (hello_leaves_other_spans (GET "/" ∅) env_dumps_raises
                  (snd (hello (GET "/" ∅) (calm 0 1) initial_world)) 0 H)).
Defined.

(** ** The order of the calls *)

(** X16. In an invocation in which nothing raises, the calls come in this
    order: the gauge goes up, the span starts and gets its two attributes,
    the line is logged while the span is open, the span ends, and only then
    the gauge goes down, the counter goes up and the elapsed time is
    observed. *)
Theorem hello_calm_history (request : Request) (env : Env) (w : World) :
  no_raise env ->
  new_events w (snd (hello request env w))
  = [GaugeInc (method request, "/");
     SpanStart (Trace.next_id (tracer w)) "hello-endpoint-processing";
     SetAttribute (Trace.next_id (tracer w)) "http.method" (method request);
     SetAttribute (Trace.next_id (tracer w)) "http.path" "/";
     LogInfo (log_line request);
     SpanEnd (Trace.next_id (tracer w));
     GaugeDec (method request, "/");
     CounterInc (method request, "/");
     Observe (method request, "/") (t_exit env - t_enter env)%Q].
Proof.
  intros Hcalm. run_hello. rewrite !Hcalm.
  erewrite new_events_app; [|cbn [events]; same_history]. reflexivity.
Qed.

Lemma hello_calm_history_witness :
  no_raise (calm 0 1)
  /\ new_events initial_world (snd (hello (GET "/" ∅) (calm 0 1) initial_world))
     = [GaugeInc (method (GET "/" ∅), "/");
        SpanStart (Trace.next_id (tracer initial_world)) "hello-endpoint-processing";
        SetAttribute (Trace.next_id (tracer initial_world)) "http.method"
                     (method (GET "/" ∅));
        SetAttribute (Trace.next_id (tracer initial_world)) "http.path" "/";
        LogInfo (log_line (GET "/" ∅));
        SpanEnd (Trace.next_id (tracer initial_world));
        GaugeDec (method (GET "/" ∅), "/");
        CounterInc (method (GET "/" ∅), "/");
        Observe (method (GET "/" ∅), "/") (t_exit (calm 0 1) - t_enter (calm 0 1))%Q].
Proof.
  assert (H : no_raise (calm 0 1)) by (intros s; reflexivity).
  split; [exact H|].
  exact (hello_calm_history (GET "/" ∅) (calm 0 1) initial_world H).
Defined.

(** ** HEAD *)



(** ** The gauge while invocations overlap *)

Lemma gauge_net_metric_calls_prefix_le l job j :
  (gauge_net l (take j (metric_calls job)) <= 1)%Z.
Proof.
  rewrite metric_calls_eq.
  destruct j as [|[|[|[|[|j]]]]]; unfold gauge_net, tally; cbn [take foldr gauge_step];
    destruct (decide ((method (fst job), "/") = l)); lia.
Qed.

Lemma sum_Z_le_length zs : Forall (fun z => (z <= 1)%Z) zs -> (sum_Z zs <= Z.of_nat (length zs))%Z.
Proof.
  induction 1 as [|z zs Hz _ IH]; [done|].
  unfold sum_Z in *. cbn [foldr length]. lia.
Qed.

(** X18. While invocations overlap, the in-flight gauge of a series never
    exceeds its value at the start by more than the number of invocations:
    after the first [k] calls of any schedule it lies between the initial
    value and the initial value plus the number of invocations. *)
Theorem gauge_is_bounded_by_invocations (jobs : list (Request * Env))
    (tr : list Event) (r : Registry) (l : LabelValues) (k : nat) :
  interleaving (map metric_calls jobs) tr ->
  (gauge_value r l <= gauge_value (replay (take k tr) r) l
                   <= gauge_value r l + Z.of_nat (length jobs))%Z.
Proof.
  intros Hint. rewrite gauge_value_replay.
  destruct (interleaving_take _ _ k Hint) as (ps & Hps & Hk).
  unfold gauge_net. rewrite (tally_interleaving _ _ _ Hk).
  apply Forall2_fmap_r in Hps.
  assert (Hlo : (0 <= sum_Z (map (tally (gauge_step l)) ps))%Z).
  { apply sum_Z_nonneg, Forall_fmap.
    eapply Forall2_Forall_l; [exact Hps|]. apply Forall_true.
    intros job p [j ->]. apply gauge_net_metric_calls_prefix. }
  assert (Hhi : (sum_Z (map (tally (gauge_step l)) ps) <= Z.of_nat (length jobs))%Z).
  { rewrite <- (Forall2_length _ _ _ Hps), <- (length_map (tally (gauge_step l)) ps).
    apply sum_Z_le_length, Forall_fmap.
    eapply Forall2_Forall_l; [exact Hps|]. apply Forall_true.
    intros job p [j ->]. apply gauge_net_metric_calls_prefix_le. }
  lia.
Qed.

Lemma gauge_is_bounded_by_invocations_witness :
  interleaving
    (map metric_calls [(GET "/" ∅, calm 0 3); (GET "/" ∅, calm 1 2)])
    [GaugeInc GET_root; GaugeInc GET_root; GaugeDec GET_root; CounterInc GET_root;
     GaugeDec GET_root; Observe GET_root (2 - 1)%Q; CounterInc GET_root;
     Observe GET_root (3 - 0)%Q]
  /\ gauge_value
       (replay (take 2 [GaugeInc GET_root; GaugeInc GET_root; GaugeDec GET_root;
                        CounterInc GET_root; GaugeDec GET_root;
                        Observe GET_root (2 - 1)%Q; CounterInc GET_root;
                        Observe GET_root (3 - 0)%Q])
               empty_registry) GET_root = 2%Z
  /\ (gauge_value empty_registry GET_root
      <= gauge_value
           (replay (take 2 [GaugeInc GET_root; GaugeInc GET_root; GaugeDec GET_root;
                            CounterInc GET_root; GaugeDec GET_root;
                            Observe GET_root (2 - 1)%Q; CounterInc GET_root;
                            Observe GET_root (3 - 0)%Q])
                   empty_registry) GET_root
      <= gauge_value empty_registry GET_root + Z.of_nat 2)%Z.
Proof.
  split; [exact overlap_schedule|]. split; [vm_compute; reflexivity|].
  exact (gauge_is_bounded_by_invocations
           [(GET "/" ∅, calm 0 3); (GET "/" ∅, calm 1 2)] _ empty_registry GET_root 2
           overlap_schedule).
Defined.
